(** * SimPLe / ppo.py: the PPO engine

    A shallow embedding of [src/ppo.py] (RolloutBuffer, ActorCritic, PPO)
    and the properties of its specification.

    Conventions of the embedding.
    - Python numbers that are only added and multiplied (the Monte-Carlo
      return loop) are modelled over an interface [Num], instantiated at
      binary64 floats (what CPython computes with), at the rationals and at
      the reals.
    - Tensor entries are modelled as real numbers: rounding, NaN and
      infinities are not represented, and a division by zero is the total
      division of [R]. The forward pass on a batch is the pass on each of
      its samples; in floating point the two can differ in the last bit,
      and an exponential can round to zero.
    - Python exceptions are a [Result]; methods of the engine run in a
      state-and-exception monad in which a raised exception keeps the
      mutations made before it.
    - What torch computes numerically inside the convolutional encoder, the
      Adam step and the multinomial sampler is left as an interface
      ([Torch]); the layers that fix shapes (the final [Linear], [Softmax],
      [Categorical]) are written out. *)

From Stdlib Require Import ZArith QArith Reals Lra Lia List String Floats.
From stdpp Require Import base option list gmap strings fin_maps.

Set Default Proof Using "Type".
Set Warnings "-inexact-float".
#[local] Open Scope string_scope.
#[local] Open Scope list_scope.

(** ** Numbers of the return loop *)

(** The operations [PPO.update] applies to rewards: the literal [0], [+]
    and [*]. *)
Class Num (F : Type) : Type := {
  zero : F;
  add : F -> F -> F;
  mul : F -> F -> F
}.

#[export] Instance Num_float : Num float :=
  {| zero := 0%float; add := PrimFloat.add; mul := PrimFloat.mul |}.

#[export] Instance Num_Q : Num Q :=
  {| zero := 0%Q; add := Qplus; mul := Qmult |}.

#[export] Instance Num_R : Num R :=
  {| zero := 0%R; add := Rplus; mul := Rmult |}.

(** ** Monte-Carlo estimate of returns (ppo.py, lines 126-133) *)

Section Returns.
Context {F : Type} `{Num F}.

(** One iteration of the [for] loop; the state is the pair of the list
    [rewards] built so far and [discounted_reward]. *)
Definition returns_step (gamma : F) (st : list F * F) (p : F * bool)
  : list F * F :=
  let '(rewards, discounted_reward) := st in
  let '(reward, is_terminal) := p in
  let discounted_reward := if is_terminal then zero else discounted_reward in
  let discounted_reward := add reward (mul gamma discounted_reward) in
  (discounted_reward :: rewards, discounted_reward).

(** [zip(reversed(rewards), reversed(is_terminals))]: Python's [zip] stops
    at the shorter sequence, as [zip] on lists does. *)
Definition discounted_returns (gamma : F) (rewards : list F)
    (is_terminals : list bool) : list F :=
  fst (fold_left (returns_step gamma)
         (zip (reverse rewards) (reverse is_terminals)) ([], zero)).

(** The return sequence read chronologically: the return of a step is its
    reward plus [gamma] times the return of the next step, and a terminal
    step has no next step. *)
Fixpoint returns_chrono (gamma : F) (steps : list (F * bool)) : list F :=
  match steps with
  | [] => []
  | (r, done) :: rest =>
      let tl := returns_chrono gamma rest in
      add r (mul gamma (if done then zero else hd zero tl)) :: tl
  end.

End Returns.

(** ** Exceptions and the state-and-exception monad *)

Inductive Exn : Type :=
| IndexError
| RuntimeError (msg : string)
| ValueError (msg : string)
| FileNotFoundError (path : string).

Inductive Result (A : Type) : Type :=
| Ok (a : A)
| Raise (e : Exn).
Arguments Ok {A} a.
Arguments Raise {A} e.

#[export] Instance Result_ret : MRet Result := fun A a => Ok a.
#[export] Instance Result_bind : MBind Result := fun A B f r =>
  match r with Ok a => f a | Raise e => Raise e end.

(** A computation over a state [S] that may raise; the state reached when
    the exception was raised is kept, as Python keeps the mutations made
    before a [raise]. *)
Definition SE (S A : Type) : Type := S -> Result A * S.

#[export] Instance SE_ret {S} : MRet (SE S) := fun A a s => (Ok a, s).
#[export] Instance SE_bind {S} : MBind (SE S) := fun A B f c s =>
  match c s with
  | (Ok a, s') => f a s'
  | (Raise e, s') => (Raise e, s')
  end.

Definition lift {S A} (r : Result A) : SE S A := fun s => (r, s).
Definition get {S} : SE S S := fun s => (Ok s, s).
Definition modify {S} (f : S -> S) : SE S unit := fun s => (Ok tt, f s).

(** ** Tensors *)

Record Tensor : Type := { shape : list nat; data : list R }.

#[export] Instance Tensor_inhabited : Inhabited Tensor :=
  populate {| shape := []; data := [] |}.

Definition numel (s : list nat) : nat := foldr Nat.mul 1 s.

(** A tensor's entries are laid out row-major; it is well formed when it
    has as many entries as its shape says. *)
Definition tensor_wf (x : Tensor) : Prop := length (data x) = numel (shape x).

(** [x.shape[i]] *)
Definition shape_at (x : Tensor) (i : nat) : Result nat :=
  match shape x !! i with
  | Some d => Ok d
  | None => Raise IndexError
  end.

(** [x.reshape(s)]: the entries are kept in their order, only the shape
    changes; the number of entries must agree. *)
Definition reshape (x : Tensor) (s : list nat) : Result Tensor :=
  if decide (numel s = numel (shape x))
  then Ok {| shape := s; data := data x |}
  else Raise (RuntimeError "shape is invalid for input size").

(** [torch.stack(xs, dim=0)] *)
Definition stack (xs : list Tensor) : Result Tensor :=
  match xs with
  | [] => Raise (RuntimeError "stack expects a non-empty TensorList")
  | x :: rest =>
      if decide (Forall (fun y => shape y = shape x) rest)
      then Ok {| shape := length xs :: shape x;
                 data := concat (map data xs) |}
      else Raise (RuntimeError "stack expects each tensor to be equal size")
  end.

(** [torch.squeeze(x)]: every dimension of size one is removed. *)
Definition squeeze (x : Tensor) : Tensor :=
  {| shape := filter (fun d => d <> 1) (shape x); data := data x |}.

(** Tensors of rank at most one, for the per-sample quantities of a batch:
    [Scal] is a 0-d tensor, [Vec l] has shape [[length l]]. *)
Inductive T1 (A : Type) : Type :=
| Scal (a : A)
| Vec (l : list A).
Arguments Scal {A} a.
Arguments Vec {A} l.

Definition t1_map {A B} (f : A -> B) (x : T1 A) : T1 B :=
  match x with
  | Scal a => Scal (f a)
  | Vec l => Vec (map f l)
  end.

Definition t1_list {A} (x : T1 A) : list A :=
  match x with
  | Scal a => [a]
  | Vec l => l
  end.

(** An element-wise binary operation with torch's broadcasting, at rank at
    most one: equal sizes go entry by entry, a 0-d tensor or a size of one
    is repeated, any other pair of sizes is an error. *)
Definition bop {A B C} (f : A -> B -> C) (x : T1 A) (y : T1 B)
  : Result (T1 C) :=
  match x, y with
  | Scal a, Scal b => Ok (Scal (f a b))
  | Scal a, Vec l => Ok (Vec (map (f a) l))
  | Vec l, Scal b => Ok (Vec (map (fun a => f a b) l))
  | Vec l1, Vec l2 =>
      if decide (length l1 = length l2) then Ok (Vec (zip_with f l1 l2))
      else match l1, l2 with
           | [a], _ => Ok (Vec (map (f a) l2))
           | _, [b] => Ok (Vec (map (fun a => f a b) l1))
           | _, _ =>
               Raise (RuntimeError "The size of tensor a must match the size of tensor b")
           end
  end.

(** A tensor of results is a result when every entry is. *)
Definition t1_sequence {A} (x : T1 (Result A)) : Result (T1 A) :=
  match x with
  | Scal r => a ← r; mret (Scal a)
  | Vec l => l' ← mapM (fun r => r) l; mret (Vec l')
  end.

(** [torch.squeeze] of a stack of one-element tensors, and of an [[n, 1]]
    column: shape [[n]], and a 0-d tensor when [n = 1]. *)
Definition squeeze_vec {A} (l : list A) : T1 A :=
  match l with
  | [a] => Scal a
  | _ => Vec l
  end.

(** [torch.squeeze(torch.stack(l, dim=0))] for a list of one-element
    tensors. *)
Definition stack_squeeze {A} (l : list A) : Result (T1 A) :=
  match l with
  | [] => Raise (RuntimeError "stack expects a non-empty TensorList")
  | _ => Ok (squeeze_vec l)
  end.

Definition Rsum (l : list R) : R := foldr Rplus 0%R l.

(** [x.mean()] *)
Definition mean (l : list R) : R := (Rsum l / INR (length l))%R.

(** [x.std()], with Bessel's correction as torch's default has it. *)
Definition std (l : list R) : R :=
  let mu := mean l in
  R_sqrt.sqrt (Rsum (map (fun x => ((x - mu) * (x - mu))%R) l) / (INR (length l) - 1)).

Definition t1_mean (x : T1 R) : R :=
  match x with
  | Scal a => a
  | Vec l => mean l
  end.

(** [torch.clamp(x, lo, hi)] *)
Definition clamp (lo hi x : R) : R := Rmin (Rmax x lo) hi.

(** [nn.Softmax(dim=-1)] on one row. *)
Definition softmax (z : list R) : list R :=
  let e := map exp z in
  map (fun x => (x / Rsum e)%R) e.

(** [nn.MSELoss()] with its default mean reduction. *)
Definition MseLoss (input target : T1 R) : Result R :=
  d ← bop Rminus input target;
  mret (t1_mean (t1_map (fun x => (x * x)%R) d)).

(** ** Parameters of a network, and what torch computes inside it *)

(** A module's [state_dict()]: parameter name to tensor. *)
Abbreviation Params := (gmap string Tensor).

(** The numerical kernels of torch the embedding does not open. *)
Class Torch : Type := {
  (** Layers 0 to 6 of a head (["actor"] or ["critic"]) on one sample of
      shape [[c, h, w]]: Conv2d(state_dim, 16, 8, 4), ReLU,
      Conv2d(16, 32, 4, 2), ReLU, Flatten, Linear(2816, 256), ReLU. It
      raises on a sample whose shape the layers do not accept. *)
  hidden : string -> Params -> Tensor -> Result (list R);
  (** [torch.multinomial(probs, 1)] on one row of probabilities, from and
      to a state of the random generator. *)
  multinomial : list R -> N -> nat * N;
  (** [optimizer.zero_grad(); loss.mean().backward(); optimizer.step()]:
      the parameters and the moment estimates after one Adam step, from
      the two learning rates, the loss as a function of the parameters,
      the parameters and the moment estimates before the step. *)
  adam_step : R -> R -> (Params -> Result R) -> Params ->
              gmap string (Tensor * Tensor) ->
              Params * gmap string (Tensor * Tensor)
}.

(** The contract of [torch.multinomial]: the index drawn from a row is an
    index of that row. *)
Class TorchSpec `{Torch} : Prop := {
  multinomial_lt : forall (p : list R) (g : N),
    p <> [] -> fst (multinomial p g) < length p
}.

(** [nn.Module.load_state_dict(sd)] (strict): every parameter whose key is
    in [sd] with the same shape is overwritten by a copy of the entry of
    [sd]; the call then raises if a key was missing, unexpected, or of
    another shape. The pair is the module after the call and whether it
    returned normally. *)
Definition copy_ (sd : Params) (k : string) (p : Tensor) : Tensor :=
  match sd !! k with
  | Some q =>
      if decide (shape q = shape p)
      then {| shape := shape p; data := data q |}
      else p
  | None => p
  end.

Definition loadable (m sd : Params) : Prop :=
  dom sd = dom m /\
  map_Forall (fun k p => shape <$> (sd !! k) = Some (shape p)) m.

#[export] Instance loadable_dec m sd : Decision (loadable m sd).
Proof. unfold loadable. apply _. Defined.

Definition load_state_dict (m sd : Params) : Params * bool :=
  (map_imap (fun k p => Some (copy_ sd k p)) m, bool_decide (loadable m sd)).
Arguments load_state_dict : simpl never.

(** ** torch.distributions.Categorical, on one row *)

Module Categorical.

(** [torch.finfo(torch.float32).eps], the bound of [clamp_probs]. *)
Definition eps : R := (/ 8388608)%R.

(** [Categorical(probs)]: the row is normalised to sum to one. *)
Definition __init__ (probs : list R) : list R :=
  map (fun p => (p / Rsum probs)%R) probs.

Definition logit (p : R) : R := ln (clamp eps (1 - eps) p).

(** [dist.log_prob(value)]; a value outside the support raises. *)
Definition log_prob (dist : list R) (value : nat) : Result R :=
  match dist !! value with
  | Some p => Ok (logit p)
  | None =>
      Raise (ValueError "The value argument must be within the support")
  end.

Definition entropy (dist : list R) : R :=
  (- Rsum (map (fun p => logit p * p) dist))%R.

(** [dist.sample()] *)
Definition sample `{Torch} (dist : list R) : SE N nat := fun g =>
  match dist with
  | [] => (Raise (RuntimeError "cannot sample from zero categories"), g)
  | _ => let '(a, g') := multinomial dist g in (Ok a, g')
  end.

End Categorical.

(** ** class RolloutBuffer *)

Module RolloutBuffer.

(** The five parallel lists. An entry of [actions] or of [logprobs] is the
    content of the one-element tensor [select_action] returns for a
    step. *)
Record t : Type := {
  actions : list nat;
  states : list Tensor;
  logprobs : list R;
  rewards : list R;
  is_terminals : list bool
}.

Definition __init__ : t :=
  {| actions := []; states := []; logprobs := []; rewards := [];
     is_terminals := [] |}.

(** [del l[:]] *)
Definition del_all {A} (l : list A) : list A := drop (length l) l.

Definition clear (b : t) : t :=
  {| actions := del_all (actions b);
     states := del_all (states b);
     logprobs := del_all (logprobs b);
     rewards := del_all (rewards b);
     is_terminals := del_all (is_terminals b) |}.

Definition lengths (b : t) : list nat :=
  [length (actions b); length (states b); length (logprobs b);
   length (rewards b); length (is_terminals b)].

End RolloutBuffer.

(** ** class ActorCritic *)

Module ActorCritic.

(** The parameters [__init__] creates, by the positions of the layers in
    the two [nn.Sequential]: Conv2d(state_dim, 16, 8, 4) at 0,
    Conv2d(16, 32, 4, 2) at 2, Linear(2816, 256) at 5 and
    Linear(256, action_dim) (for the critic Linear(256, 1)) at 7. *)
Definition head (name : string) (state_dim out : nat)
  : list (string * list nat) :=
  [ (name +:+ ".0.weight", [16; state_dim; 8; 8]);
    (name +:+ ".0.bias", [16]);
    (name +:+ ".2.weight", [32; 16; 4; 4]);
    (name +:+ ".2.bias", [32]);
    (name +:+ ".5.weight", [256; 256 * 11]);
    (name +:+ ".5.bias", [256]);
    (name +:+ ".7.weight", [out; 256]);
    (name +:+ ".7.bias", [out]) ].

Definition layers (state_dim action_dim : nat) : list (string * list nat) :=
  head "actor" state_dim action_dim ++ head "critic" state_dim 1.

(** [init k i] is the value the random initialiser draws for entry [i] of
    parameter [k]. *)
Definition parameter (init : string -> nat -> R) (ks : string * list nat)
  : string * Tensor :=
  (ks.1, {| shape := ks.2; data := map (init ks.1) (seq 0 (numel ks.2)) |}).

Definition __init__ (state_dim action_dim : nat) (init : string -> nat -> R)
  : Params :=
  list_to_map (map (parameter init) (layers state_dim action_dim)).

(** The samples of a batch [[n, c, h, w]]. Another rank is rejected: with
    the geometry the network is built for, an input that is not 4-d fails
    in the layers. *)
Definition batch_rows (x : Tensor) : Result (list Tensor) :=
  match shape x with
  | [n; c; h; w] =>
      Ok (map (fun i => {| shape := [c; h; w];
                           data := take (c * h * w)
                                     (drop (i * (c * h * w)) (data x)) |})
              (seq 0 n))
  | _ => Raise (RuntimeError "Expected 4D input to conv2d")
  end.

Definition dot (u v : list R) : R := Rsum (zip_with Rmult u v).

(** [nn.Linear] at key [name], on one row. *)
Definition linear (m : Params) (name : string) (h : list R)
  : Result (list R) :=
  match m !! (name +:+ ".weight"), m !! (name +:+ ".bias") with
  | Some W, Some b =>
      match shape W with
      | [out; inn] =>
          if decide (length h = inn)
          then Ok (zip_with (fun row bi => (dot row h + bi)%R)
                     (map (fun i => take inn (drop (i * inn) (data W)))
                          (seq 0 out))
                     (data b))
          else Raise (RuntimeError "mat1 and mat2 shapes cannot be multiplied")
      | _ => Raise (RuntimeError "weight of Linear is not a matrix")
      end
  | _, _ => Raise (RuntimeError "missing parameter")
  end.

Section forward.
Context `{Torch}.

(** [self.actor] on one sample: a row of probabilities. *)
Definition actor_row (m : Params) (x : Tensor) : Result (list R) :=
  h ← hidden "actor" m x;
  z ← linear m "actor.7" h;
  mret (softmax z).

(** [self.critic] on one sample: its value. *)
Definition critic_row (m : Params) (x : Tensor) : Result R :=
  h ← hidden "critic" m x;
  z ← linear m "critic.7" h;
  match z with
  | [v] => Ok v
  | _ => Raise (RuntimeError "the critic head has one output")
  end.

(** [self.actor(state)]: the layers act on each sample of the batch on
    its own, and give a row of probabilities per sample. *)
Definition actor (m : Params) (state : Tensor) : Result (list (list R)) :=
  rows ← batch_rows state;
  mapM (actor_row m) rows.

(** [self.critic(state)]: the column [[n, 1]] of values. *)
Definition critic (m : Params) (state : Tensor) : Result (list R) :=
  rows ← batch_rows state;
  mapM (critic_row m) rows.

Definition act (m : Params) (state : Tensor) : SE N (list nat * list R) :=
  action_probs ← lift (actor m state);
  let dist := map Categorical.__init__ action_probs in
  action ← mapM (M := SE N) Categorical.sample dist;
  action_logprob ← lift (mapM (fun '(d, a) => Categorical.log_prob d a)
                           (zip dist action));
  mret (action, action_logprob).

Definition evaluate (m : Params) (state : Tensor) (action : T1 nat)
  : Result (T1 R * list R * T1 R) :=
  action_probs ← actor m state;
  let dist := map Categorical.__init__ action_probs in
  lp ← bop Categorical.log_prob (Vec dist) action;
  action_logprobs ← t1_sequence lp;
  let dist_entropy := map Categorical.entropy dist in
  state_values ← critic m state;
  mret (action_logprobs, state_values, Vec dist_entropy).

End forward.

End ActorCritic.

(** ** class PPO *)

Module PPO.

(** [torch.optim.Adam] over the two parameter groups; [step_count] counts
    the calls of [step()]. *)
Record Adam : Type := {
  lr_actor : R;
  lr_critic : R;
  step_count : nat;
  moments : gmap string (Tensor * Tensor)
}.

(** The attributes of an engine ([MseLoss] has no state). *)
Record t : Type := {
  gamma : R;
  eps_clip : R;
  K_epochs : Z;
  device : string;
  buffer : RolloutBuffer.t;
  policy : Params;
  optimizer : Adam;
  policy_old : Params
}.

(** What an engine runs in: the engine itself, the checkpoint files, the
    state of torch's random generator and its gradient mode, and a log of
    the model queries and optimizer steps made so far (newest first). *)
Inductive Which : Type := Live | Behavior.

Inductive Event : Type :=
| EvAct (m : Which) (grad : bool) (input : Tensor)
| EvEvaluate (m : Which) (grad : bool)
| EvStep.

Record World : Type := {
  self : t;
  files : gmap string Params;
  rng : N;
  grad_enabled : bool;
  trace : list Event
}.

Abbreviation M := (SE World).

Definition set_self (f : t -> t) (w : World) : World :=
  {| self := f (self w); files := files w; rng := rng w;
     grad_enabled := grad_enabled w; trace := trace w |}.

Definition set_files (f : gmap string Params -> gmap string Params)
    (w : World) : World :=
  {| self := self w; files := f (files w); rng := rng w;
     grad_enabled := grad_enabled w; trace := trace w |}.

Definition set_grad (b : bool) (w : World) : World :=
  {| self := self w; files := files w; rng := rng w;
     grad_enabled := b; trace := trace w |}.

Definition log (ev : Event) (w : World) : World :=
  {| self := self w; files := files w; rng := rng w;
     grad_enabled := grad_enabled w; trace := ev :: trace w |}.

Definition set_buffer (b : RolloutBuffer.t) (e : t) : t :=
  {| gamma := gamma e; eps_clip := eps_clip e; K_epochs := K_epochs e;
     device := device e; buffer := b; policy := policy e;
     optimizer := optimizer e; policy_old := policy_old e |}.

Definition set_policy (p : Params) (e : t) : t :=
  {| gamma := gamma e; eps_clip := eps_clip e; K_epochs := K_epochs e;
     device := device e; buffer := buffer e; policy := p;
     optimizer := optimizer e; policy_old := policy_old e |}.

Definition set_policy_old (p : Params) (e : t) : t :=
  {| gamma := gamma e; eps_clip := eps_clip e; K_epochs := K_epochs e;
     device := device e; buffer := buffer e; policy := policy e;
     optimizer := optimizer e; policy_old := p |}.

Definition set_optimizer (o : Adam) (e : t) : t :=
  {| gamma := gamma e; eps_clip := eps_clip e; K_epochs := K_epochs e;
     device := device e; buffer := buffer e; policy := policy e;
     optimizer := o; policy_old := policy_old e |}.

Definition stepped (mo : gmap string (Tensor * Tensor)) (o : Adam) : Adam :=
  {| lr_actor := lr_actor o; lr_critic := lr_critic o;
     step_count := S (step_count o); moments := mo |}.

(** A computation on the random generator, run on the world's. *)
Definition with_rng {A} (c : SE N A) : M A := fun w =>
  let '(r, g) := c (rng w) in
  (r, {| self := self w; files := files w; rng := g;
         grad_enabled := grad_enabled w; trace := trace w |}).

(** [with torch.no_grad(): body]: the gradient mode is off inside and is
    restored on the way out, also when [body] raises. *)
Definition no_grad {A} (body : M A) : M A := fun w =>
  let '(r, w') := body (set_grad false w) in
  (r, set_grad (grad_enabled w) w').

(** [PPO(buffer, state_dim, action_dim, lr_actor, lr_critic, gamma,
    K_epochs, eps_clip, device)]; [init] and [init_old] are the values the
    random initialisers of the two networks draw. *)
Definition __init__ (buffer : RolloutBuffer.t) (state_dim action_dim : nat)
    (lr_actor lr_critic gamma : R) (K_epochs : Z) (eps_clip : R)
    (device : string) (init init_old : string -> nat -> R) : Result t :=
  let policy := ActorCritic.__init__ state_dim action_dim init in
  let optimizer := {| lr_actor := lr_actor; lr_critic := lr_critic;
                      step_count := 0; moments := ∅ |} in
  let policy_old := ActorCritic.__init__ state_dim action_dim init_old in
  let '(policy_old, ok) := load_state_dict policy_old policy in
  if ok
  then Ok {| gamma := gamma; eps_clip := eps_clip; K_epochs := K_epochs;
             device := device; buffer := buffer; policy := policy;
             optimizer := optimizer; policy_old := policy_old |}
  else Raise (RuntimeError "Error(s) in loading state_dict").

(** [(rewards - rewards.mean()) / (rewards.std() + 1e-7)] *)
Definition normalize (rewards : list R) : list R :=
  let mu := mean rewards in
  let sd := std rewards in
  map (fun x => ((x - mu) / (sd + / 10000000))%R) rewards.

(** The tensors [update] builds before its loop. *)
Record Batch : Type := {
  returns : T1 R;
  old_states : Tensor;
  old_actions : T1 nat;
  old_logprobs : T1 R
}.

(** The tensors of one pass of the loop body. *)
Record Terms : Type := {
  ratios : T1 R;
  advantages : T1 R;
  surr1 : T1 R;
  surr2 : T1 R;
  loss : T1 R
}.

Section methods.
Context `{Torch}.

(** [state] reshaped as [select_action] does (lines 112-114). *)
Definition select_action_input (state : Tensor) : Result Tensor :=
  d0 ← shape_at state 0;
  d3 ← shape_at state 3;
  d1 ← shape_at state 1;
  d2 ← shape_at state 2;
  reshape state [1; d0 * d3; d1; d2].

Definition select_action (state : Tensor) : M (list nat * list R) :=
  '(action, action_logprob) ←
    no_grad (state ← lift (select_action_input state);
             w ← get;
             _ ← modify (log (EvAct Behavior (grad_enabled w) state));
             with_rng (ActorCritic.act (policy_old (self w)) state));
  mret (action, action_logprob).

(** Lines 125-144 of [update]. *)
Definition update_batch (e : t) : Result Batch :=
  let rewards :=
    discounted_returns (gamma e) (RolloutBuffer.rewards (buffer e))
      (RolloutBuffer.is_terminals (buffer e)) in
  let rewards := normalize rewards in
  stacked ← stack (RolloutBuffer.states (buffer e));
  let old_states := squeeze stacked in
  old_actions ← stack_squeeze (RolloutBuffer.actions (buffer e));
  old_logprobs ← stack_squeeze (RolloutBuffer.logprobs (buffer e));
  mret {| returns := Vec rewards; old_states := old_states;
          old_actions := old_actions; old_logprobs := old_logprobs |}.

(** Lines 150-165: the loss of the batch under parameters [m]. *)
Definition surrogate (eps_clip : R) (b : Batch) (m : Params) : Result Terms :=
  '(logprobs, state_values, dist_entropy) ←
    ActorCritic.evaluate m (old_states b) (old_actions b);
  let state_values := squeeze_vec state_values in
  d ← bop Rminus logprobs (old_logprobs b);
  let ratios := t1_map exp d in
  advantages ← bop Rminus (returns b) state_values;
  surr1 ← bop Rmult ratios advantages;
  surr2 ← bop Rmult (t1_map (clamp (1 - eps_clip) (1 + eps_clip)) ratios)
            advantages;
  smin ← bop Rmin surr1 surr2;
  mse ← MseLoss state_values (returns b);
  l ← bop Rplus (t1_map Ropp smin) (Scal (0.5 * mse)%R);
  loss ← bop Rminus l (t1_map (Rmult 0.01) dist_entropy);
  mret {| ratios := ratios; advantages := advantages; surr1 := surr1;
          surr2 := surr2; loss := loss |}.

(** [loss.mean()] *)
Definition loss_mean (eps_clip : R) (b : Batch) (m : Params) : Result R :=
  t ← surrogate eps_clip b m;
  mret (t1_mean (loss t)).

(** One pass of the loop (lines 150-170): the forward pass on the live
    model, then the gradient step; [backward()] raises when gradients are
    not being tracked. *)
Definition epoch (b : Batch) : M unit :=
  w ← get;
  _ ← modify (log (EvEvaluate Live (grad_enabled w)));
  _ ← lift (loss_mean (eps_clip (self w)) b (policy (self w)));
  _ ← lift (if grad_enabled w then Ok tt
            else Raise (RuntimeError "element 0 of tensors does not require grad"));
  let o := optimizer (self w) in
  let '(p, mo) := adam_step (lr_actor o) (lr_critic o)
                    (loss_mean (eps_clip (self w)) b) (policy (self w))
                    (moments o) in
  _ ← modify (set_self (fun e => set_optimizer (stepped mo o) (set_policy p e)));
  modify (log EvStep).

(** [for _ in range(n): ...] *)
Fixpoint epochs (n : nat) (b : Batch) : M unit :=
  match n with
  | O => mret tt
  | S n' => _ ← epoch b; epochs n' b
  end.

(** Lines 125-170: everything up to the end of the loop. *)
Definition update_optimize : M unit :=
  w ← get;
  b ← lift (update_batch (self w));
  epochs (Z.to_nat (K_epochs (self w))) b.

(** [self.policy_old.load_state_dict(self.policy.state_dict())] *)
Definition sync_policy_old : M unit :=
  w ← get;
  let '(p, ok) := load_state_dict (policy_old (self w)) (policy (self w)) in
  _ ← modify (set_self (set_policy_old p));
  lift (if ok then Ok tt
        else Raise (RuntimeError "Error(s) in loading state_dict")).

(** [self.buffer.clear()] *)
Definition clear_buffer : M unit :=
  modify (set_self (fun e => set_buffer (RolloutBuffer.clear (buffer e)) e)).

Definition update : M unit :=
  _ ← update_optimize;
  _ ← sync_policy_old;
  clear_buffer.

(** [torch.save(self.policy_old.state_dict(), checkpoint_path)] *)
Definition save (checkpoint_path : string) : M unit :=
  w ← get;
  modify (set_files (<[checkpoint_path := policy_old (self w)]>)).

(** [torch.load(checkpoint_path, map_location=...)] *)
Definition torch_load (checkpoint_path : string) : M Params :=
  w ← get;
  lift (match files w !! checkpoint_path with
        | Some sd => Ok sd
        | None => Raise (FileNotFoundError checkpoint_path)
        end).

Definition load (checkpoint_path : string) : M unit :=
  sd ← torch_load checkpoint_path;
  w ← get;
  let '(p, ok) := load_state_dict (policy_old (self w)) sd in
  _ ← modify (set_self (set_policy_old p));
  _ ← lift (if ok then Ok tt
            else Raise (RuntimeError "Error(s) in loading state_dict"));
  sd ← torch_load checkpoint_path;
  w ← get;
  let '(p, ok) := load_state_dict (policy (self w)) sd in
  _ ← modify (set_self (set_policy p));
  lift (if ok then Ok tt
        else Raise (RuntimeError "Error(s) in loading state_dict")).

End methods.

End PPO.

(** ** A concrete backend and concrete engines

    Used to run the model: a network whose hidden layer is zero on every
    sample its convolutions accept (what the layers compute when all their
    parameters are zero), a sampler that always draws the first category,
    and an optimizer step that leaves the parameters where they are. *)

(** Output size of a convolution of kernel [k] and stride [s]. *)
Definition conv_out (d k s : nat) : nat := (d - k) / s + 1.

Definition zero_hidden (name : string) (m : Params) (x : Tensor)
  : Result (list R) :=
  match shape x, shape <$> (m !! (name +:+ ".0.weight")) with
  | [c; h; w], Some [_; c'; _; _] =>
      if decide (c = c' /\ 8 <= h /\ 8 <= w /\
                 32 * (conv_out (conv_out h 8 4) 4 2
                       * conv_out (conv_out w 8 4) 4 2) = 256 * 11)
      then Ok (repeat 0%R 256)
      else Raise (RuntimeError "input does not fit the layers")
  | _, _ => Raise (RuntimeError "input does not fit the layers")
  end.

Definition demo_torch : Torch :=
  {| hidden := zero_hidden;
     multinomial := fun _ g => (0, N.succ g);
     adam_step := fun _ _ _ p mo => (p, mo) |}.

Definition const_init (v : R) : string -> nat -> R := fun _ _ => v.

(** An observation of four frames of 105 by 80 pixels with three channels,
    and the tensor [select_action] makes of it. *)
Definition demo_obs : Tensor :=
  {| shape := [4; 105; 80; 3]; data := repeat 0%R (4 * 105 * 80 * 3) |}.

Definition demo_input : Tensor :=
  {| shape := [1; 4 * 3; 105; 80]; data := data demo_obs |}.

Definition demo_policy : Params := ActorCritic.__init__ 12 2 (const_init 0).

(** The engine [PPO(buffer, 12, 2, 0.0003, 0.001, 0.99, 2, 0.2, "cpu")]
    when both initialisers drew zeros. *)
Definition demo_engine (b : RolloutBuffer.t) : PPO.t :=
  {| PPO.gamma := 0.99; PPO.eps_clip := 0.2; PPO.K_epochs := 2;
     PPO.device := "cpu"; PPO.buffer := b; PPO.policy := demo_policy;
     PPO.optimizer := {| PPO.lr_actor := 0.0003; PPO.lr_critic := 0.001;
                         PPO.step_count := 0; PPO.moments := ∅ |};
     PPO.policy_old := demo_policy |}.

Definition demo_world (b : RolloutBuffer.t) : PPO.World :=
  {| PPO.self := demo_engine b; PPO.files := ∅; PPO.rng := 0%N;
     PPO.grad_enabled := true; PPO.trace := [] |}.

(** What [select_action] returns on [demo_obs] in [demo_world]. *)
Definition demo_step : list nat * list R :=
  match fst (PPO.select_action (H := demo_torch) demo_obs
               (demo_world RolloutBuffer.__init__)) with
  | Ok r => r
  | Raise _ => ([], [])
  end.

(** Two steps collected by a driver, the second one terminal. *)
Definition demo_buffer : RolloutBuffer.t :=
  {| RolloutBuffer.actions := fst demo_step ++ fst demo_step;
     RolloutBuffer.states := [demo_input; demo_input];
     RolloutBuffer.logprobs := snd demo_step ++ snd demo_step;
     RolloutBuffer.rewards := [0%R; 1%R];
     RolloutBuffer.is_terminals := [false; true] |}.

(** The same steps with one reward too many. *)
Definition mismatched_buffer : RolloutBuffer.t :=
  {| RolloutBuffer.actions := RolloutBuffer.actions demo_buffer;
     RolloutBuffer.states := RolloutBuffer.states demo_buffer;
     RolloutBuffer.logprobs := RolloutBuffer.logprobs demo_buffer;
     RolloutBuffer.rewards := [1%R; 1%R; 1%R];
     RolloutBuffer.is_terminals := [false; true] |}.

(** ** Predicates of the specification *)

(** A parameter set has the layout of [ActorCritic(state_dim, action_dim)]
    when it has the keys of that network, each with its shape. *)
Definition has_layout (state_dim action_dim : nat) (m : Params) : Prop :=
  dom m = list_to_set (ActorCritic.layers state_dim action_dim).*1
  /\ forall k s, (k, s) ∈ ActorCritic.layers state_dim action_dim ->
       exists p, m !! k = Some p /\ shape p = s /\ tensor_wf p.

(** The world after some training of the live model: the live parameters,
    the optimizer and the log are new, everything else is as it was. *)
Definition trained (p : Params) (o : PPO.Adam) (tr : list PPO.Event)
    (w : PPO.World) : PPO.World :=
  {| PPO.self := PPO.set_optimizer o (PPO.set_policy p (PPO.self w));
     PPO.files := PPO.files w; PPO.rng := PPO.rng w;
     PPO.grad_enabled := PPO.grad_enabled w; PPO.trace := tr |}.

Definition is_step (ev : PPO.Event) : bool :=
  match ev with
  | PPO.EvStep => true
  | _ => false
  end.

(** The number of optimizer steps in a log. *)
Definition steps_logged (tr : list PPO.Event) : nat :=
  length (List.filter is_step tr).

(** An engine built with other initial values, in a world where the
    behavior model of [demo_world demo_buffer] has been saved. *)
Definition demo_fresh : PPO.t :=
  {| PPO.gamma := 0.99; PPO.eps_clip := 0.2; PPO.K_epochs := 2;
     PPO.device := "cpu"; PPO.buffer := RolloutBuffer.__init__;
     PPO.policy := ActorCritic.__init__ 12 2 (const_init 1);
     PPO.optimizer := {| PPO.lr_actor := 0.0003; PPO.lr_critic := 0.001;
                         PPO.step_count := 0; PPO.moments := ∅ |};
     PPO.policy_old := ActorCritic.__init__ 12 2 (const_init 1) |}.

Definition demo_loader : PPO.World :=
  {| PPO.self := demo_fresh;
     PPO.files := PPO.files (snd (PPO.save "ppo.pth" (demo_world demo_buffer)));
     PPO.rng := 0%N; PPO.grad_enabled := true; PPO.trace := [] |}.

(** Placeholders for the cases that do not arise on the concrete engines. *)
Definition no_batch : PPO.Batch :=
  {| PPO.returns := Vec []; PPO.old_states := inhabitant;
     PPO.old_actions := Vec []; PPO.old_logprobs := Vec [] |}.

Definition no_terms : PPO.Terms :=
  {| PPO.ratios := Vec []; PPO.advantages := Vec []; PPO.surr1 := Vec [];
     PPO.surr2 := Vec []; PPO.loss := Vec [] |}.

(** The batch and the first-pass tensors of [update] on [demo_buffer]. *)
Definition demo_batch : PPO.Batch :=
  match PPO.update_batch (demo_engine demo_buffer) with
  | Ok b => b
  | Raise _ => no_batch
  end.

Definition demo_terms : PPO.Terms :=
  match PPO.surrogate (H := demo_torch) 0.2 demo_batch demo_policy with
  | Ok t => t
  | Raise _ => no_terms
  end.












(** ** Further predicates and concrete worlds *)

(** The rewards of the episode a list of steps starts with: up to and
    including its first terminal step, or all of them. *)
Fixpoint episode (steps : list (R * bool)) : list R :=
  match steps with
  | [] => []
  | (r, done) :: rest => r :: (if done then [] else episode rest)
  end.

(** [gamma ^ k * r0 + gamma ^ (k + 1) * r1 + ...] *)
Fixpoint power_sum (gamma : R) (k : nat) (rs : list R) : R :=
  match rs with
  | [] => 0
  | r :: rs => gamma ^ k * r + power_sum gamma (S k) rs
  end.

(** [demo_world] with [K_epochs = 0]. *)
Definition idle_world (b : RolloutBuffer.t) : PPO.World :=
  {| PPO.self :=
       {| PPO.gamma := 0.99; PPO.eps_clip := 0.2; PPO.K_epochs := 0;
          PPO.device := "cpu"; PPO.buffer := b; PPO.policy := demo_policy;
          PPO.optimizer := PPO.optimizer (demo_engine b);
          PPO.policy_old := demo_policy |};
     PPO.files := ∅; PPO.rng := 0%N; PPO.grad_enabled := true;
     PPO.trace := [] |}.

Definition idle_batch : PPO.Batch :=
  match PPO.update_batch (PPO.self (idle_world demo_buffer)) with
  | Ok b => b
  | Raise _ => no_batch
  end.

(** One collected step. *)
Definition single_buffer : RolloutBuffer.t :=
  {| RolloutBuffer.actions := fst demo_step;
     RolloutBuffer.states := [demo_input];
     RolloutBuffer.logprobs := snd demo_step;
     RolloutBuffer.rewards := [1%R];
     RolloutBuffer.is_terminals := [true] |}.

(** A single frame, without the frame dimension. *)
Definition flat_obs : Tensor :=
  {| shape := [105; 80; 3]; data := repeat 0%R (105 * 80 * 3) |}.

(** The probabilities of the behavior model of [demo_engine] on
    [demo_input]. *)
Definition demo_probs : list (list R) :=
  match ActorCritic.actor (H := demo_torch) demo_policy demo_input with
  | Ok probs => probs
  | Raise _ => []
  end.

(** * Properties *)

(** ** The return loop *)

Section ReturnsFacts.
Context {F : Type} `{Num F}.
Implicit Types (gamma : F) (steps : list (F * bool)).

Lemma returns_chrono_length gamma steps :
  length (returns_chrono gamma steps) = length steps.
Proof.
  induction steps as [|[r d] rest IH]; simpl; [reflexivity|].
  by rewrite IH.
Qed.

(** The loop, run on the steps latest first, builds the chronological
    returns of the steps it has seen, and its accumulator is the return of
    the earliest of them. *)
Lemma fold_returns_step gamma (later : list (F * bool)) steps :
  fold_left (returns_step gamma) later
    (returns_chrono gamma steps, hd zero (returns_chrono gamma steps))
  = (returns_chrono gamma (reverse later ++ steps),
     hd zero (returns_chrono gamma (reverse later ++ steps))).
Proof.
  revert steps. induction later as [|[r d] later IH]; intros steps.
  - reflexivity.
  - rewrite reverse_cons, <- app_assoc. simpl.
    apply (IH ((r, d) :: steps)).
Qed.

Lemma discounted_returns_chrono gamma (rewards : list F) is_terminals :
  discounted_returns gamma rewards is_terminals
  = returns_chrono gamma
      (reverse (zip (reverse rewards) (reverse is_terminals))).
Proof.
  unfold discounted_returns.
  rewrite (fold_returns_step gamma _ []), app_nil_r. reflexivity.
Qed.

Lemma returns_chrono_lookup gamma steps t r (d : bool) :
  steps !! t = Some (r, d) ->
  returns_chrono gamma steps !! t
  = Some (add r (mul gamma
            (if d then zero
             else default zero (returns_chrono gamma steps !! S t)))).
Proof.
  revert t. induction steps as [|[r0 d0] rest IH]; intros t Ht; [done|].
  destruct t as [|t]; simpl in *.
  - inversion Ht; subst.
    by destruct (returns_chrono gamma rest).
  - by apply IH.
Qed.

(** The returns from a step on depend on the steps from it on only. *)
Lemma returns_chrono_drop gamma steps t :
  drop t (returns_chrono gamma steps) = returns_chrono gamma (drop t steps).
Proof.
  revert t. induction steps as [|[r d] rest IH]; intros [|t]; try done.
  simpl. apply IH.
Qed.

(** The returns up to a terminal step do not depend on what follows it. *)
Lemma returns_chrono_terminal gamma (before after : list (F * bool)) r :
  returns_chrono gamma (before ++ (r, true) :: after)
  = returns_chrono gamma (before ++ [(r, true)])
    ++ returns_chrono gamma after.
Proof.
  induction before as [|[r0 d0] before IH]; [done|].
  simpl. rewrite IH. f_equal.
  destruct (returns_chrono gamma (before ++ [(r, true)])) eqn:E; [|done].
  apply (f_equal length) in E.
  rewrite returns_chrono_length, length_app in E. simpl in E. lia.
Qed.

End ReturnsFacts.

Lemma zip_reverse {A B} (l : list A) (k : list B) :
  length l = length k ->
  zip (reverse l) (reverse k) = reverse (zip l k).
Proof.
  revert k. induction l as [|x l IH]; intros [|y k] Hlen; try done.
  simpl in Hlen. rewrite !reverse_cons, zip_with_app.
  - rewrite IH by lia. simpl. by rewrite reverse_cons.
  - rewrite !length_reverse. lia.
Qed.

Lemma discounted_returns_aligned {F} `{Num F} (gamma : F) rewards is_terminals :
  length rewards = length is_terminals ->
  discounted_returns gamma rewards is_terminals
  = returns_chrono gamma (zip rewards is_terminals).
Proof.
  intros Hlen.
  by rewrite discounted_returns_chrono, zip_reverse, reverse_involutive.
Qed.

(** C1. [PPO.update] computes the discounted returns by running over the
    rewards and terminal flags latest first with an accumulator that is
    reset to zero on a terminal flag before the step's reward is folded in.
    For rewards and flags of equal length the resulting list has the length
    of the buffer and is in chronological order: the entry of step [t] is
    its reward plus [gamma] times the entry of step [t + 1], or the reward
    alone when [t] is terminal or last. These are the returns [update]
    normalises. For rewards [[1, 1, 1]], flags [[False, False, True]] and
    [gamma = 0.9] the returns are [[2.71, 1.9, 1.0]], in binary64
    arithmetic, over the rationals and over the reals. *)
Theorem update_discounted_returns {F : Type} `{Num F}
    (gamma : F) (rewards : list F) (is_terminals : list bool) :
  length rewards = length is_terminals ->
  let G := discounted_returns gamma rewards is_terminals in
  length G = length rewards
  /\ G = returns_chrono gamma (zip rewards is_terminals)
  /\ (forall t r (d : bool),
        rewards !! t = Some r -> is_terminals !! t = Some d ->
        G !! t = Some (add r (mul gamma
                   (if d then zero else default zero (G !! S t)))))
  /\ discounted_returns 0.9%float [1%float; 1%float; 1%float]
       [false; false; true] = [2.71%float; 1.9%float; 1%float]
  /\ Forall2 Qeq
       (discounted_returns (9 # 10)%Q [1%Q; 1%Q; 1%Q] [false; false; true])
       [(271 # 100)%Q; (19 # 10)%Q; 1%Q]
  /\ discounted_returns 0.9%R [1%R; 1%R; 1%R] [false; false; true]
     = [2.71%R; 1.9%R; 1%R]
  /\ (forall e b, PPO.update_batch e = Ok b ->
        PPO.returns b
        = Vec (PPO.normalize
                 (discounted_returns (PPO.gamma e)
                    (RolloutBuffer.rewards (PPO.buffer e))
                    (RolloutBuffer.is_terminals (PPO.buffer e))))).
Proof.
  intros Hlen G. subst G.
  rewrite (discounted_returns_aligned gamma) by done.
  split_and!.
  - rewrite returns_chrono_length, length_zip_with_l_eq; done.
  - reflexivity.
  - intros t r d Hr Hd. apply returns_chrono_lookup.
    apply lookup_zip_with_Some. eauto.
  - vm_compute. reflexivity.
  - repeat constructor; vm_compute; reflexivity.
  - cbv [discounted_returns reverse rev_append zip_with fold_left
           returns_step fst add mul zero Num_R].
    repeat (f_equal; try lra).
  - intros e b Hb. unfold PPO.update_batch in Hb.
    destruct (stack _); [|done].
    destruct (stack_squeeze (RolloutBuffer.actions _)); [|done].
    destruct (stack_squeeze (RolloutBuffer.logprobs _)); [|done].
    simpl in Hb. by inversion Hb.
Qed.

Lemma update_discounted_returns_witness :
  length [2%float; 4%float] = length [false; true]
  /\ discounted_returns 0.5%float [2%float; 4%float] [false; true]
     = returns_chrono 0.5%float [(2%float, false); (4%float, true)].
Proof.
  split; [reflexivity|].
  pose proof (update_discounted_returns 0.5%float [2%float; 4%float]
                [false; true] eq_refl) as (_ & HG & _).
  exact HG.
Defined.

Lemma lookup_agree_take {A} (l k : list A) n :
  (forall t, t < n -> l !! t = k !! t) -> take n l = take n k.
Proof.
  intros Hagree. apply list_eq. intros i.
  destruct (decide (i < n)) as [Hi|Hi].
  - rewrite !lookup_take_lt by done. by apply Hagree.
  - rewrite !lookup_take_ge by lia. done.
Qed.

Lemma lookup_agree_drop {A} (l k : list A) n :
  (forall t, n <= t -> l !! t = k !! t) -> drop n l = drop n k.
Proof.
  intros Hagree. apply list_eq. intros i.
  rewrite !lookup_drop. apply Hagree. lia.
Qed.

(** The returns up to a terminal step are those of the steps up to it. *)
Lemma returns_chrono_take {F} `{Num F} (gamma : F) steps T r :
  steps !! T = Some (r, true) ->
  take (S T) (returns_chrono gamma steps)
  = returns_chrono gamma (take (S T) steps).
Proof.
  intros HT.
  rewrite (take_S_r steps T (r, true)) by done.
  rewrite <- (take_drop_middle steps T (r, true)) at 1 by done.
  rewrite returns_chrono_terminal.
  apply take_app_length'.
  rewrite returns_chrono_length, length_app, length_take. simpl.
  apply lookup_lt_Some in HT. lia.
Qed.

(** C2. Within one buffer a terminal flag at index [T] separates the
    returns: for two reward sequences under the same flags, agreement of
    the rewards at the positions up to [T] gives equal returns at the
    positions up to [T], whatever the rewards after [T] are, and agreement
    of the rewards at the positions after [T] gives equal returns at the
    positions after [T], whatever the rewards up to [T] are. *)
Theorem returns_do_not_cross_terminal {F : Type} `{Num F}
    (gamma : F) (rewards rewards' : list F) (is_terminals : list bool)
    (T : nat) :
  length rewards = length is_terminals ->
  length rewards' = length is_terminals ->
  is_terminals !! T = Some true ->
  let G := discounted_returns gamma rewards is_terminals in
  let G' := discounted_returns gamma rewards' is_terminals in
  ((forall t, t <= T -> rewards !! t = rewards' !! t) ->
   forall t, t <= T -> G !! t = G' !! t)
  /\ ((forall t, T < t -> rewards !! t = rewards' !! t) ->
      forall t, T < t -> G !! t = G' !! t).
Proof.
  intros Hlen Hlen' HT G G'. subst G G'.
  rewrite !(discounted_returns_aligned gamma) by done.
  assert (T < length is_terminals) as HTlt by (by eapply lookup_lt_Some).
  split.
  - intros Hagree t Ht.
    assert (take (S T) rewards = take (S T) rewards') as Htake.
    { apply lookup_agree_take. intros i Hi. apply Hagree. lia. }
    destruct (lookup_lt_is_Some_2 rewards T) as [r Hr]; [lia|].
    destruct (lookup_lt_is_Some_2 rewards' T) as [r' Hr']; [lia|].
    rewrite <- (lookup_take_lt (returns_chrono gamma (zip rewards _)) (S T))
      by lia.
    rewrite <- (lookup_take_lt (returns_chrono gamma (zip rewards' _)) (S T))
      by lia.
    rewrite (returns_chrono_take gamma (zip rewards is_terminals) T r).
    2: { apply lookup_zip_with_Some. eauto. }
    rewrite (returns_chrono_take gamma (zip rewards' is_terminals) T r').
    2: { apply lookup_zip_with_Some. eauto. }
    by rewrite !zip_with_take, Htake.
  - intros Hagree t Ht.
    assert (drop (S T) rewards = drop (S T) rewards') as Hdrop.
    { apply lookup_agree_drop. intros i Hi. apply Hagree. lia. }
    replace t with (S T + (t - S T)) by lia.
    rewrite <- !lookup_drop, !returns_chrono_drop, !zip_with_drop, Hdrop.
    done.
Qed.

Lemma returns_do_not_cross_terminal_witness :
  [false; true; false] !! 1 = Some true
  /\ discounted_returns 0.5%float [1%float; 2%float; 3%float]
       [false; true; false] !! 1
     = discounted_returns 0.5%float [1%float; 2%float; 7%float]
         [false; true; false] !! 1.
Proof.
  split; [reflexivity|].
  refine (proj1 (returns_do_not_cross_terminal 0.5%float
                   [1%float; 2%float; 3%float] [1%float; 2%float; 7%float]
                   [false; true; false] 1 eq_refl eq_refl eq_refl) _ 1 _).
  - intros [|[|t]] Ht; [reflexivity|reflexivity|simpl in Ht; lia].
  - lia.
Defined.

(** ** Parameter sets and [load_state_dict] *)

(** A copy that [load_state_dict] accepts leaves the module equal to the
    state dictionary, entry by entry. *)
Lemma load_state_dict_ok (m sd : Params) :
  snd (load_state_dict m sd) = true -> fst (load_state_dict m sd) = sd.
Proof.
  unfold load_state_dict. simpl. intros Hok.
  apply bool_decide_eq_true in Hok as [Hdom Hshape].
  apply map_eq. intros k. rewrite map_lookup_imap.
  destruct (m !! k) as [p|] eqn:Hm; simpl.
  - specialize (Hshape k p Hm). simpl in Hshape. unfold copy_.
    destruct (sd !! k) as [q|]; [|done].
    simpl in Hshape. inversion Hshape as [Hs].
    rewrite decide_True by done. destruct q; simpl in *. by subst.
  - symmetry. apply not_elem_of_dom. rewrite Hdom. by apply not_elem_of_dom.
Qed.

Lemma load_state_dict_loadable (m sd : Params) :
  loadable m sd -> load_state_dict m sd = (sd, true).
Proof.
  intros Hl.
  assert (snd (load_state_dict m sd) = true) as Hok
    by (by apply bool_decide_eq_true).
  pose proof (load_state_dict_ok m sd Hok) as Hfst.
  destruct (load_state_dict m sd). simpl in *. by subst.
Qed.

Lemma layers_NoDup state_dim action_dim :
  NoDup (ActorCritic.layers state_dim action_dim).*1.
Proof. apply (bool_decide_unpack _). vm_compute. reflexivity. Qed.

Lemma ActorCritic_init_lookup state_dim action_dim init k s :
  (k, s) ∈ ActorCritic.layers state_dim action_dim ->
  ActorCritic.__init__ state_dim action_dim init !! k
  = Some {| shape := s; data := map (init k) (seq 0 (numel s)) |}.
Proof.
  intros Hin. unfold ActorCritic.__init__.
  apply elem_of_list_to_map_1.
  - rewrite <- list_fmap_compose.
    erewrite list_fmap_ext; [apply (layers_NoDup state_dim action_dim)|].
    by intros i [k' s'].
  - apply (list_elem_of_fmap_2 (ActorCritic.parameter init)) in Hin.
    exact Hin.
Qed.

Lemma ActorCritic_init_layout state_dim action_dim init :
  has_layout state_dim action_dim
    (ActorCritic.__init__ state_dim action_dim init).
Proof.
  split.
  - unfold ActorCritic.__init__. rewrite dom_list_to_map_L.
    reflexivity.
  - intros k s Hin. eexists. split; [by apply ActorCritic_init_lookup|].
    split; [done|]. unfold tensor_wf. simpl.
    by rewrite length_map, length_seq.
Qed.

(** Two parameter sets of one layout can be loaded into each other. *)
Lemma layout_loadable state_dim action_dim (m sd : Params) :
  has_layout state_dim action_dim m ->
  has_layout state_dim action_dim sd ->
  loadable m sd.
Proof.
  intros [Hdm Hm] [Hds Hsd]. split; [congruence|].
  intros k p Hk. simpl.
  assert (k ∈ dom m) as Hin by (apply elem_of_dom; eauto).
  rewrite Hdm, elem_of_list_to_set, list_elem_of_fmap in Hin.
  destruct Hin as ([k' s] & -> & Hin). simpl in *.
  destruct (Hm _ _ Hin) as (p' & Hp' & Hs' & _).
  destruct (Hsd _ _ Hin) as (q & Hq & Hsq & _).
  rewrite Hq. simpl. congruence.
Qed.

Lemma load_state_dict_layout state_dim action_dim (m sd : Params) :
  has_layout state_dim action_dim m ->
  has_layout state_dim action_dim sd ->
  load_state_dict m sd = (sd, true).
Proof.
  intros Hm Hsd. apply load_state_dict_loadable.
  by eapply layout_loadable.
Qed.

(** Construction never raises, and stores its arguments. *)
Lemma PPO_init_ok buffer state_dim action_dim lr_actor lr_critic gamma
    K_epochs eps_clip device init init_old :
  PPO.__init__ buffer state_dim action_dim lr_actor lr_critic gamma
    K_epochs eps_clip device init init_old
  = Ok {| PPO.gamma := gamma; PPO.eps_clip := eps_clip;
          PPO.K_epochs := K_epochs; PPO.device := device;
          PPO.buffer := buffer;
          PPO.policy := ActorCritic.__init__ state_dim action_dim init;
          PPO.optimizer :=
            {| PPO.lr_actor := lr_actor; PPO.lr_critic := lr_critic;
               PPO.step_count := 0; PPO.moments := ∅ |};
          PPO.policy_old := ActorCritic.__init__ state_dim action_dim init |}.
Proof.
  unfold PPO.__init__.
  rewrite (load_state_dict_layout state_dim action_dim)
    by apply ActorCritic_init_layout.
  reflexivity.
Qed.

(** ** The training loop of [update] *)

Ltac se_unfold :=
  unfold mbind, SE_bind, mret, SE_ret, lift, get, modify in *.

Lemma trained_id (w : PPO.World) :
  w = trained (PPO.policy (PPO.self w)) (PPO.optimizer (PPO.self w))
        (PPO.trace w) w.
Proof. by destruct w as [[] ? ? ? ?]. Qed.

Lemma trained_trained p o tr p' o' tr' w :
  trained p' o' tr' (trained p o tr w) = trained p' o' tr' w.
Proof. reflexivity. Qed.

Section Training.
Context `{Torch}.

Lemma epoch_trained (b : PPO.Batch) (w w' : PPO.World) (r : Result unit) :
  PPO.epoch b w = (r, w') ->
  exists p o tr, w' = trained p o tr w
    /\ (r = Ok tt ->
        PPO.step_count o = S (PPO.step_count (PPO.optimizer (PPO.self w)))
        /\ steps_logged tr = S (steps_logged (PPO.trace w))).
Proof.
  unfold PPO.epoch. se_unfold. simpl.
  destruct (PPO.loss_mean _ _ _) as [l|e].
  - destruct (PPO.grad_enabled w) eqn:Hg.
    + destruct (adam_step _ _ _ _ _) as [p mo] eqn:Hstep. simpl.
      intros [= <- <-]. eexists p, _, _. split; [reflexivity|].
      intros _. split; reflexivity.
    + intros [= <- <-]. destruct w as [[] ? ? ? ?].
      eexists _, _, _. split; [reflexivity|done].
  - intros [= <- <-]. destruct w as [[] ? ? ? ?].
    eexists _, _, _. split; [reflexivity|done].
Qed.

Lemma epochs_trained (n : nat) (b : PPO.Batch) (w w' : PPO.World)
    (r : Result unit) :
  PPO.epochs n b w = (r, w') ->
  exists p o tr, w' = trained p o tr w
    /\ (r = Ok tt ->
        PPO.step_count o = PPO.step_count (PPO.optimizer (PPO.self w)) + n
        /\ steps_logged tr = steps_logged (PPO.trace w) + n).
Proof.
  revert w. induction n as [|n IH]; intros w; simpl.
  - intros [= <- <-]. eexists _, _, _. split; [apply trained_id|].
    intros _. lia.
  - se_unfold. destruct (PPO.epoch b w) as [[[]|e] w1] eqn:He.
    + apply epoch_trained in He as (p & o & tr & -> & Hs).
      destruct (Hs eq_refl) as [Hs1 Hs2].
      intros Hn. apply IH in Hn as (p' & o' & tr' & -> & Hs').
      eexists p', o', tr'. split; [done|].
      intros Hr. destruct (Hs' Hr) as [Hs1' Hs2']. simpl in *. lia.
    + apply epoch_trained in He as (p & o & tr & -> & _).
      intros [= <- <-]. eexists _, _, _. split; [done|]. done.
Qed.

(** Up to the end of the loop, [update] only trains. *)
Lemma update_optimize_trained (w w' : PPO.World) (r : Result unit) :
  PPO.update_optimize w = (r, w') ->
  exists p o tr, w' = trained p o tr w
    /\ (r = Ok tt ->
        PPO.step_count o
        = PPO.step_count (PPO.optimizer (PPO.self w))
          + Z.to_nat (PPO.K_epochs (PPO.self w))
        /\ steps_logged tr
           = steps_logged (PPO.trace w)
             + Z.to_nat (PPO.K_epochs (PPO.self w))).
Proof.
  unfold PPO.update_optimize. se_unfold.
  destruct (PPO.update_batch (PPO.self w)) as [b|e].
  - apply epochs_trained.
  - intros [= <- <-]. eexists _, _, _. split; [apply trained_id|done].
Qed.

End Training.

Lemma load_state_dict_true (m sd p : Params) :
  load_state_dict m sd = (p, true) -> p = sd.
Proof.
  intros Hl. pose proof (load_state_dict_ok m sd) as Hok.
  rewrite Hl in Hok. by apply Hok.
Qed.

Lemma clear_is_empty (b : RolloutBuffer.t) :
  RolloutBuffer.clear b = RolloutBuffer.__init__.
Proof.
  unfold RolloutBuffer.clear, RolloutBuffer.del_all, RolloutBuffer.__init__.
  by rewrite !drop_all.
Qed.

(** [update] is its training part, then the copy, then the clearing. *)
Lemma update_cases `{Torch} (w w' : PPO.World) (r : Result unit) :
  PPO.update w = (r, w') ->
  (exists e, PPO.update_optimize w = (Raise e, w') /\ r = Raise e)
  \/ (exists w1, PPO.update_optimize w = (Ok tt, w1)
      /\ ((r = Ok tt
           /\ w' = PPO.set_self
                     (fun e => PPO.set_buffer RolloutBuffer.__init__
                                 (PPO.set_policy_old (PPO.policy (PPO.self w1)) e))
                     w1)
          \/ (exists e, r = Raise e
              /\ PPO.buffer (PPO.self w') = PPO.buffer (PPO.self w1)))).
Proof.
  unfold PPO.update. se_unfold.
  destruct (PPO.update_optimize w) as [[[]|e] w1] eqn:Hopt.
  - intros Hrest. right. exists w1. split; [done|].
    unfold PPO.sync_policy_old, PPO.clear_buffer in Hrest. se_unfold.
    destruct (load_state_dict _ _) as [p [|]] eqn:Hload; simpl in Hrest.
    + left. apply load_state_dict_true in Hload as ->.
      injection Hrest as <- <-. split; [done|].
      destruct w1 as [[] ? ? ? ?].
      unfold PPO.set_self, PPO.set_buffer, PPO.set_policy_old. simpl.
      by rewrite clear_is_empty.
    + right. injection Hrest as <- <-. eexists. split; [done|].
      by destruct w1 as [[] ? ? ? ?].
  - intros [= <- <-]. left. eauto.
Qed.

(** C6. A call of [update] that returns has made exactly [K_epochs]
    optimizer steps (none for a negative [K_epochs]); after the loop it has
    copied the live parameters, as the loop left them, into the behavior
    model, and it has emptied the buffer whatever the buffer held. A call
    that raises before the loop has completed leaves the buffer and the
    behavior model exactly as they were. *)
Theorem update_steps_then_sync_then_clear `{Torch}
    (w w' : PPO.World) (r : Result unit) :
  PPO.update w = (r, w') ->
  let K := PPO.K_epochs (PPO.self w) in
  (r = Ok tt ->
     PPO.step_count (PPO.optimizer (PPO.self w'))
     = PPO.step_count (PPO.optimizer (PPO.self w)) + Z.to_nat K
     /\ steps_logged (PPO.trace w')
        = steps_logged (PPO.trace w) + Z.to_nat K
     /\ ((0 <= K)%Z ->
         (Z.of_nat (steps_logged (PPO.trace w'))
          - Z.of_nat (steps_logged (PPO.trace w)) = K)%Z)
     /\ (exists w1, PPO.update_optimize w = (Ok tt, w1)
         /\ PPO.policy (PPO.self w') = PPO.policy (PPO.self w1)
         /\ PPO.policy_old (PPO.self w') = PPO.policy (PPO.self w1))
     /\ PPO.buffer (PPO.self w') = RolloutBuffer.__init__
     /\ RolloutBuffer.lengths (PPO.buffer (PPO.self w')) = [0; 0; 0; 0; 0])
  /\ (forall e w1, PPO.update_optimize w = (Raise e, w1) ->
        r = Raise e /\ w' = w1
        /\ PPO.buffer (PPO.self w') = PPO.buffer (PPO.self w)
        /\ PPO.policy_old (PPO.self w') = PPO.policy_old (PPO.self w)).
Proof.
  intros Hupd K. subst K.
  apply update_cases in Hupd as [(e & Hopt & ->)|(w1 & Hopt & Hrest)].
  - split; [done|]. intros e' w1 He'. rewrite Hopt in He'.
    injection He' as <- <-.
    apply update_optimize_trained in Hopt as (p & o & tr & -> & _). done.
  - split; [|intros e w2 He; by rewrite Hopt in He].
    intros ->. destruct Hrest as [[_ ->]|(e & He & _)]; [|done].
    pose proof Hopt as Hopt'.
    apply update_optimize_trained in Hopt as (p & o & tr & -> & Hs).
    destruct (Hs eq_refl) as [Hs1 Hs2]. simpl.
    split_and!; try done.
    + intros HK. rewrite Hs2. lia.
    + by eexists.
Qed.

(** ** Checkpoints *)

Lemma save_spec (path : string) (w : PPO.World) :
  PPO.save path w
  = (Ok tt, PPO.set_files (<[path := PPO.policy_old (PPO.self w)]>) w).
Proof. reflexivity. Qed.

(** A [load] that returns has put the checkpoint into both models. *)
Lemma load_returns (path : string) (w w' : PPO.World) :
  PPO.load path w = (Ok tt, w') ->
  exists sd, PPO.files w !! path = Some sd
    /\ w' = PPO.set_self
              (fun e => PPO.set_policy sd (PPO.set_policy_old sd e)) w.
Proof.
  unfold PPO.load, PPO.torch_load. se_unfold.
  destruct (PPO.files w !! path) as [sd|] eqn:Hfile; [|done].
  destruct (load_state_dict (PPO.policy_old _) sd) as [p [|]] eqn:Hold;
    [|done].
  cbn -[load_state_dict]. rewrite Hfile.
  destruct (load_state_dict (PPO.policy _) sd) as [q [|]] eqn:Hlive;
    [|done].
  intros [= <-]. exists sd. split; [done|].
  apply load_state_dict_true in Hold as ->.
  apply load_state_dict_true in Hlive as ->.
  by destruct w as [[] ? ? ? ?].
Qed.

(** On models of the layout of the checkpoint, [load] returns. *)
Lemma load_layout state_dim action_dim (path : string) (w : PPO.World) sd :
  PPO.files w !! path = Some sd ->
  has_layout state_dim action_dim sd ->
  has_layout state_dim action_dim (PPO.policy (PPO.self w)) ->
  has_layout state_dim action_dim (PPO.policy_old (PPO.self w)) ->
  PPO.load path w
  = (Ok tt,
     PPO.set_self (fun e => PPO.set_policy sd (PPO.set_policy_old sd e)) w).
Proof.
  intros Hfile Hsd Hlive Hold.
  unfold PPO.load, PPO.torch_load. se_unfold. rewrite Hfile.
  rewrite (load_state_dict_layout state_dim action_dim) by done.
  cbn -[load_state_dict]. rewrite Hfile.
  rewrite (load_state_dict_layout state_dim action_dim) by done.
  by destruct w as [[] ? ? ? ?].
Qed.

(** C4. At each synchronization point the behavior model is the live
    model, parameter for parameter: an engine is constructed with
    [policy_old] equal to [policy] (construction never raises), a call of
    [update] that returns leaves them equal, and so does a call of [load]
    that returns. Equal parameter dictionaries have the same tensor, of the
    same shape and entries, under every key. *)
Theorem behavior_equals_live_at_sync_points :
  (forall buffer state_dim action_dim lr_actor lr_critic gamma K_epochs
          eps_clip device init init_old,
     exists e,
       PPO.__init__ buffer state_dim action_dim lr_actor lr_critic gamma
         K_epochs eps_clip device init init_old = Ok e
       /\ PPO.policy_old e = PPO.policy e)
  /\ (forall (T : Torch) (w w' : PPO.World),
        PPO.update w = (Ok tt, w') ->
        PPO.policy_old (PPO.self w') = PPO.policy (PPO.self w'))
  /\ (forall (path : string) (w w' : PPO.World),
        PPO.load path w = (Ok tt, w') ->
        PPO.policy_old (PPO.self w') = PPO.policy (PPO.self w'))
  /\ (forall e : PPO.t,
        PPO.policy_old e = PPO.policy e ->
        forall k : string, PPO.policy_old e !! k = PPO.policy e !! k).
Proof.
  split_and!.
  - intros. eexists. split; [apply PPO_init_ok|done].
  - intros T w w' Hupd.
    apply update_cases in Hupd as [(e & _ & ?)|(w1 & _ & Hrest)]; [done|].
    destruct Hrest as [[_ ->]|(e & ? & _)]; [|done].
    by destruct w1 as [[] ? ? ? ?].
  - intros path w w' Hload.
    apply load_returns in Hload as (sd & _ & ->).
    by destruct w as [[] ? ? ? ?].
  - by intros e -> k.
Qed.

(** ** [select_action] *)

Lemma reshape_frames (state : Tensor) (f h wd c : nat) :
  shape state = [f; h; wd; c] ->
  PPO.select_action_input state
  = Ok {| shape := [1; f * c; h; wd]; data := data state |}.
Proof.
  intros Hs. unfold PPO.select_action_input, shape_at, reshape.
  rewrite Hs. simpl. rewrite decide_True; [done|]. lia.
Qed.

(** What a call of [select_action] does to the world. *)
Lemma select_action_runs `{Torch} (state : Tensor) (w : PPO.World) :
  let r := fst (PPO.select_action state w) in
  let w' := snd (PPO.select_action state w) in
  PPO.self w' = PPO.self w
  /\ PPO.files w' = PPO.files w
  /\ PPO.grad_enabled w' = PPO.grad_enabled w
  /\ match PPO.select_action_input state with
     | Ok x =>
         PPO.trace w' = PPO.EvAct PPO.Behavior false x :: PPO.trace w
         /\ (r, PPO.rng w')
            = ActorCritic.act (PPO.policy_old (PPO.self w)) x (PPO.rng w)
     | Raise e => r = Raise e /\ w' = w
     end.
Proof.
  unfold PPO.select_action, PPO.no_grad, PPO.with_rng. se_unfold. simpl.
  destruct (PPO.select_action_input state) as [x|e] eqn:Hin; simpl.
  - destruct (ActorCritic.act _ x (PPO.rng w)) as [[[a l]|e] g] eqn:Hact;
      simpl; split_and!; done.
  - split_and!; try done. by destruct w.
Qed.

(** C7. [select_action] reshapes an observation [[frames, height, width,
    channels]] into [[1, frames * channels, height, width]], queries the
    behavior model once, with gradient tracking off, and returns what
    [act] returns on its parameters. The engine (buffer, live parameters,
    behavior parameters, optimizer) and the checkpoint files are as
    before and the gradient mode is restored; only the random generator
    has advanced, by the sampling. When the observation cannot be
    reshaped, nothing has changed at all. What is returned does not depend
    on the live parameters, the optimizer or the buffer. *)
Theorem select_action_only_infers `{Torch} (state : Tensor) (w : PPO.World) :
  let r := fst (PPO.select_action state w) in
  let w' := snd (PPO.select_action state w) in
  PPO.self w' = PPO.self w
  /\ PPO.files w' = PPO.files w
  /\ PPO.grad_enabled w' = PPO.grad_enabled w
  /\ match PPO.select_action_input state with
     | Ok x =>
         PPO.trace w' = PPO.EvAct PPO.Behavior false x :: PPO.trace w
         /\ (r, PPO.rng w')
            = ActorCritic.act (PPO.policy_old (PPO.self w)) x (PPO.rng w)
     | Raise e => r = Raise e /\ w' = w
     end
  /\ (forall f h wd c, shape state = [f; h; wd; c] ->
        PPO.select_action_input state
        = Ok {| shape := [1; f * c; h; wd]; data := data state |})
  /\ (forall (p : Params) (o : PPO.Adam) (b : RolloutBuffer.t),
        fst (PPO.select_action state
               (PPO.set_self
                  (fun e => PPO.set_buffer b
                              (PPO.set_optimizer o (PPO.set_policy p e))) w))
        = r).
Proof.
  intros r w'. subst r w'.
  destruct (select_action_runs state w) as (? & ? & ? & Hq).
  split_and!; try done; [apply reshape_frames|].
  intros p o b.
  pose proof (select_action_runs state
                (PPO.set_self
                   (fun e => PPO.set_buffer b
                               (PPO.set_optimizer o (PPO.set_policy p e))) w))
    as (_ & _ & _ & Hq').
  destruct (PPO.select_action_input state) as [x|e].
  - destruct Hq as [_ Hq], Hq' as [_ Hq']. cbn in Hq'.
    rewrite <- Hq in Hq'. by injection Hq'.
  - destruct Hq as [-> _], Hq' as [-> _]. done.
Qed.

(** C9. [save] writes the parameters of the behavior model, and nothing
    else, under the path; it changes neither the engine nor another file.
    [load] into a freshly constructed engine of the same dimensions returns
    and leaves both the behavior and the live model equal to the saved
    parameters, so that for every state both give the action probabilities
    the saved behavior model gives. *)
Theorem save_then_load_round_trip `{Torch}
    (state_dim action_dim : nat) (path : string) (w1 w2 : PPO.World)
    (buffer : RolloutBuffer.t) (lr_actor lr_critic gamma : R) (K_epochs : Z)
    (eps_clip : R) (device : string) (init init_old : string -> nat -> R)
    (e2 : PPO.t) :
  has_layout state_dim action_dim (PPO.policy_old (PPO.self w1)) ->
  PPO.__init__ buffer state_dim action_dim lr_actor lr_critic gamma K_epochs
    eps_clip device init init_old = Ok e2 ->
  PPO.self w2 = e2 ->
  PPO.files w2 = PPO.files (snd (PPO.save path w1)) ->
  let saved := PPO.policy_old (PPO.self w1) in
  fst (PPO.save path w1) = Ok tt
  /\ PPO.self (snd (PPO.save path w1)) = PPO.self w1
  /\ PPO.files (snd (PPO.save path w1)) !! path = Some saved
  /\ (forall q, q <> path ->
        PPO.files (snd (PPO.save path w1)) !! q = PPO.files w1 !! q)
  /\ exists w2',
       PPO.load path w2 = (Ok tt, w2')
       /\ PPO.policy_old (PPO.self w2') = saved
       /\ PPO.policy (PPO.self w2') = saved
       /\ forall x,
            ActorCritic.actor (PPO.policy (PPO.self w2')) x
            = ActorCritic.actor saved x
            /\ ActorCritic.actor (PPO.policy_old (PPO.self w2')) x
               = ActorCritic.actor saved x.
Proof.
  intros Hsaved Hinit Hself Hfiles saved. subst saved.
  rewrite PPO_init_ok in Hinit. injection Hinit as <-.
  rewrite save_spec in *.
  cbn [fst snd PPO.files PPO.set_files PPO.self] in *.
  split_and!; [reflexivity|reflexivity|apply lookup_insert_eq| |].
  - intros q Hq. by apply lookup_insert_ne.
  - eexists. split.
    + apply (load_layout state_dim action_dim); [|exact Hsaved|..].
      * rewrite Hfiles. apply lookup_insert_eq.
      * rewrite Hself. apply ActorCritic_init_layout.
      * rewrite Hself. apply ActorCritic_init_layout.
    + destruct w2 as [[] ? ? ? ?]. cbn. auto.
Qed.

(** ** Sampled actions *)

Lemma mapM_Result_Forall2 {A B} (f : A -> Result B) (l : list A)
    (k : list B) :
  mapM f l = Ok k <-> Forall2 (fun x y => f x = Ok y) l k.
Proof.
  revert k. induction l as [|x l IH]; intros k; simpl.
  - split; [intros [= <-]; constructor|by inversion 1].
  - unfold mbind, Result_bind, mret, Result_ret.
    destruct (f x) as [y|e] eqn:Hx.
    + destruct (mapM f l) as [k'|e] eqn:Hl.
      * split.
        -- intros [= <-]. constructor; [done|]. by apply IH.
        -- inversion 1 as [|? y' ? k'' Hy Hk]; subst.
           apply IH in Hk. congruence.
      * split; [done|]. inversion 1 as [|? y' ? k'' Hy Hk]; subst.
        apply IH in Hk. done.
    + split; [done|]. inversion 1; congruence.
Qed.

Lemma mapM_SE_Forall2 {S A B} (f : A -> SE S B) (l : list A) (k : list B)
    (s s' : S) :
  mapM (M := SE S) f l s = (Ok k, s') ->
  Forall2 (fun x y => exists s1 s2, f x s1 = (Ok y, s2)) l k.
Proof.
  revert k s. induction l as [|x l IH]; intros k s; simpl.
  - intros [= <- <-]. constructor.
  - se_unfold. destruct (f x s) as [[y|e] s1] eqn:Hx; [|done].
    destruct (mapM f l s1) as [[k'|e] s2] eqn:Hl; [|done].
    intros [= <- <-]. constructor; [eauto|]. by eapply IH.
Qed.

Lemma sample_lt `{Torch} `{!TorchSpec} (dist : list R) (g g' : N) (a : nat) :
  Categorical.sample dist g = (Ok a, g') -> a < length dist.
Proof.
  unfold Categorical.sample. destruct dist as [|p dist]; [done|].
  pose proof (multinomial_lt (p :: dist) g) as Hlt.
  destruct (multinomial (p :: dist) g) as [a' g'']. simpl in Hlt.
  intros [= <- <-]. apply Hlt. done.
Qed.

(** The last layer of the actor gives one logit per action. *)
Lemma actor_head_length (state_dim action_dim : nat) (m : Params)
    (h z : list R) :
  has_layout state_dim action_dim m ->
  ActorCritic.linear m "actor.7" h = Ok z ->
  length z = action_dim.
Proof.
  intros [_ Hm]. unfold ActorCritic.linear.
  destruct (Hm "actor.7.weight" [action_dim; 256]) as (W & HW & HsW & _).
  { apply list_elem_of_In. cbn. auto 20. }
  destruct (Hm "actor.7.bias" [action_dim]) as (b & Hb & Hsb & Hwfb).
  { apply list_elem_of_In. cbn. auto 20. }
  change ("actor.7" +:+ ".weight") with "actor.7.weight".
  change ("actor.7" +:+ ".bias") with "actor.7.bias".
  rewrite HW, Hb, HsW. destruct (decide _); [|done].
  intros [= <-]. unfold tensor_wf in Hwfb. rewrite Hsb in Hwfb.
  simpl in Hwfb. rewrite length_zip_with, length_map, length_seq. lia.
Qed.

Lemma actor_rows_length `{Torch} (state_dim action_dim : nat) (m : Params)
    (state : Tensor) (action_probs : list (list R)) :
  has_layout state_dim action_dim m ->
  ActorCritic.actor m state = Ok action_probs ->
  Forall (fun row => length row = action_dim) action_probs.
Proof.
  intros Hm. unfold ActorCritic.actor.
  destruct (ActorCritic.batch_rows state) as [rows|e]; [|done]. simpl.
  intros Hrows. apply mapM_Result_Forall2 in Hrows.
  induction Hrows as [|x row rows' probs Hrow _ IH]; constructor; [|done].
  unfold ActorCritic.actor_row in Hrow.
  destruct (hidden "actor" m x) as [h|e]; [|done]. simpl in Hrow.
  destruct (ActorCritic.linear m "actor.7" h) as [z|e] eqn:Hz; [|done].
  simpl in Hrow. injection Hrow as <-.
  unfold softmax. rewrite !length_map.
  by eapply actor_head_length.
Qed.

(** C10. The actions [act] returns on a network built for [action_dim]
    actions are indices below [action_dim]: the actor head gives a row of
    [action_dim] probabilities for each sample, and the sample drawn from
    the categorical distribution over a row is an index of that row. So
    are the actions [select_action] returns, which are those of [act] on
    the behavior model. *)
Theorem act_action_in_range `{Torch} `{!TorchSpec}
    (state_dim action_dim : nat) (m : Params) (state : Tensor) (g g' : N)
    (action : list nat) (action_logprob : list R) :
  has_layout state_dim action_dim m ->
  ActorCritic.act m state g = (Ok (action, action_logprob), g') ->
  Forall (fun a => a < action_dim) action
  /\ (exists action_probs,
        ActorCritic.actor m state = Ok action_probs
        /\ Forall (fun row => length row = action_dim) action_probs
        /\ length action = length action_probs)
  /\ (forall (obs : Tensor) (w w' : PPO.World) acts lps,
        PPO.policy_old (PPO.self w) = m ->
        PPO.select_action obs w = (Ok (acts, lps), w') ->
        Forall (fun a => a < action_dim) acts).
Proof.
  intros Hm.
  assert (forall x s s' acts lps,
            ActorCritic.act m x s = (Ok (acts, lps), s') ->
            Forall (fun a => a < action_dim) acts
            /\ exists action_probs,
                 ActorCritic.actor m x = Ok action_probs
                 /\ Forall (fun row => length row = action_dim) action_probs
                 /\ length acts = length action_probs) as Hact.
  { intros x s s' acts lps. unfold ActorCritic.act. se_unfold.
    destruct (ActorCritic.actor m x) as [probs|e] eqn:Hprobs; [|done].
    pose proof (actor_rows_length _ _ _ _ _ Hm Hprobs) as Hlen.
    destruct (mapM (M := SE N) _ _ s) as [[as'|e] s1] eqn:Hsample; [|done].
    destruct (mapM _ (zip _ as')) as [ls|e]; [|done].
    intros [= <- <- <-].
    apply mapM_SE_Forall2 in Hsample.
    split.
    - apply Forall2_fmap_l in Hsample.
      clear Hprobs. revert Hlen.
      induction Hsample as [|row a rows as'' (s1' & s2' & Hs) _ IH];
        intros Hlen; [constructor|].
      inversion Hlen as [|?? Hrow Hrest]; subst.
      constructor; [|by apply IH].
      apply sample_lt in Hs. unfold Categorical.__init__ in Hs.
      by rewrite length_map in Hs.
    - eexists. split; [done|]. split; [done|].
      apply Forall2_length in Hsample. by rewrite length_map in Hsample. }
  intros Hrun. destruct (Hact _ _ _ _ _ Hrun) as [Hrange Hprobs].
  split_and!; [done|done|].
  intros obs w w' acts lps Hold Hsel.
  pose proof (select_action_runs obs w) as (_ & _ & _ & Hq).
  rewrite Hsel in Hq. simpl in Hq.
  destruct (PPO.select_action_input obs) as [x|e]; [|by destruct Hq].
  destruct Hq as [_ Hq]. rewrite Hold in Hq. symmetry in Hq.
  by destruct (Hact _ _ _ _ _ Hq).
Qed.

(** ** Buffers that are empty, given, or of unequal lengths *)

(** C5, as stated, fails: the engine built on a buffer that already holds
    two steps holds two steps at construction. *)
Lemma engine_buffer_nonempty_at_construction :
  match PPO.__init__ demo_buffer 12 2 0.0003 0.001 0.99 2 0.2 "cpu"
          (const_init 0) (const_init 0) with
  | Ok e =>
      RolloutBuffer.lengths (PPO.buffer e) = [2; 2; 2; 2; 2]
      /\ RolloutBuffer.lengths (PPO.buffer e) <> [0; 0; 0; 0; 0]
  | Raise _ => False
  end.
Proof. rewrite PPO_init_ok. split; [reflexivity|discriminate]. Qed.

(** C5, amended. A freshly constructed [RolloutBuffer] is empty: its five
    lists have length zero. [PPO.__init__] does not create the buffer: the
    engine holds the buffer the caller passes, as it is; built on a fresh
    [RolloutBuffer()] it therefore holds an empty buffer. *)
Theorem engine_holds_the_given_buffer
    (buffer : RolloutBuffer.t) (state_dim action_dim : nat)
    (lr_actor lr_critic gamma : R) (K_epochs : Z) (eps_clip : R)
    (device : string) (init init_old : string -> nat -> R) :
  RolloutBuffer.lengths RolloutBuffer.__init__ = [0; 0; 0; 0; 0]
  /\ (exists e,
        PPO.__init__ buffer state_dim action_dim lr_actor lr_critic gamma
          K_epochs eps_clip device init init_old = Ok e
        /\ PPO.buffer e = buffer)
  /\ (exists e,
        PPO.__init__ RolloutBuffer.__init__ state_dim action_dim lr_actor
          lr_critic gamma K_epochs eps_clip device init init_old = Ok e
        /\ RolloutBuffer.lengths (PPO.buffer e) = [0; 0; 0; 0; 0]).
Proof.
  split_and!; [done|..]; eexists; (split; [apply PPO_init_ok|done]).
Qed.

(** Rewards and flags of unequal lengths are paired from their ends. *)
Lemma discounted_returns_truncates {F} `{Num F} (gamma : F)
    (rewards : list F) (is_terminals : list bool) :
  discounted_returns gamma rewards is_terminals
  = returns_chrono gamma
      (zip (drop (length rewards - length is_terminals) rewards)
           (drop (length is_terminals - length rewards) is_terminals)).
Proof.
  rewrite discounted_returns_chrono. f_equal.
  set (n := length rewards `min` length is_terminals).
  rewrite <- (zip_with_take_both' pair n n (reverse rewards))
    by (rewrite !length_reverse; lia).
  rewrite !take_reverse, zip_reverse, reverse_involutive.
  - f_equal; f_equal; lia.
  - rewrite !length_drop. lia.
Qed.

(** C3, as stated, fails: on a buffer with three rewards for two steps
    [update] returns normally; the returns it trained on are those of the
    last two rewards. *)
Lemma update_accepts_mismatched_buffer :
  RolloutBuffer.lengths mismatched_buffer = [2; 2; 2; 3; 2]
  /\ fst (PPO.update (H := demo_torch) (demo_world mismatched_buffer)) = Ok tt
  /\ length (discounted_returns (PPO.gamma (demo_engine mismatched_buffer))
               (RolloutBuffer.rewards mismatched_buffer)
               (RolloutBuffer.is_terminals mismatched_buffer)) = 2.
Proof. split_and!; reflexivity. Qed.

Lemma stack_raises (xs : list Tensor) (e : Exn) :
  stack xs = Raise e -> exists msg, e = RuntimeError msg.
Proof.
  unfold stack. destruct xs as [|x rest]; [intros [= <-]; eauto|].
  destruct (decide _); [done|]. intros [= <-]. eauto.
Qed.

(** C3, amended. [update] on an empty buffer, and on any buffer whose list
    of states, of actions or of log-probabilities is empty, raises a
    [RuntimeError] (that of [torch.stack]) and leaves the world as it was:
    no optimizer step, no copy, no clearing. Unequal lengths are not
    checked: the rewards and terminal flags are paired from their ends, so
    that the returns are those of the last [min] of the two lengths. *)
Theorem update_raises_on_empty_buffer `{Torch} (w : PPO.World) :
  RolloutBuffer.states (PPO.buffer (PPO.self w)) = []
  \/ RolloutBuffer.actions (PPO.buffer (PPO.self w)) = []
  \/ RolloutBuffer.logprobs (PPO.buffer (PPO.self w)) = [] ->
  (exists msg, PPO.update w = (Raise (RuntimeError msg), w))
  /\ (forall (gamma : R) (rewards : list R) (is_terminals : list bool),
        discounted_returns gamma rewards is_terminals
        = returns_chrono gamma
            (zip (drop (length rewards - length is_terminals) rewards)
                 (drop (length is_terminals - length rewards) is_terminals))
        /\ length (discounted_returns gamma rewards is_terminals)
           = length rewards `min` length is_terminals).
Proof.
  intros Hempty. split.
  - unfold PPO.update, PPO.update_optimize, PPO.update_batch. se_unfold.
    destruct Hempty as [Hs|[Ha|Hl]].
    + rewrite Hs. simpl. eauto.
    + rewrite Ha. destruct (stack _) as [st|e] eqn:Hst; simpl; [eauto|].
      apply stack_raises in Hst as [msg ->]. eauto.
    + rewrite Hl. destruct (stack _) as [st|e] eqn:Hst; simpl.
      * destruct (RolloutBuffer.actions _) as [|a acts]; simpl; eauto.
      * apply stack_raises in Hst as [msg ->]. eauto.
  - intros gamma rewards is_terminals.
    rewrite discounted_returns_truncates. split; [done|].
    rewrite returns_chrono_length, length_zip_with, !length_drop. lia.
Qed.

(** ** The first pass of the loop *)

Lemma mapM_Result_length {A B} (f : A -> Result B) (l : list A) (k : list B) :
  mapM f l = Ok k -> length k = length l.
Proof.
  intros Hm. apply mapM_Result_Forall2, Forall2_length in Hm. done.
Qed.







Lemma bop_same_length {A B C} (f : A -> B -> C) (l1 : list A) (l2 : list B) :
  length l1 = length l2 ->
  bop f (Vec l1) (Vec l2) = Ok (Vec (zip_with f l1 l2)).
Proof. intros Hlen. unfold bop. by rewrite decide_True. Qed.

Lemma surrogate_terms `{Torch} (eps : R) (b : PPO.Batch) (m : Params)
    (t : PPO.Terms) :
  PPO.surrogate eps b m = Ok t ->
  bop Rmult (PPO.ratios t) (PPO.advantages t) = Ok (PPO.surr1 t)
  /\ bop Rmult (t1_map (clamp (1 - eps) (1 + eps)) (PPO.ratios t))
       (PPO.advantages t) = Ok (PPO.surr2 t).
Proof.
  unfold PPO.surrogate.
  destruct (ActorCritic.evaluate _ _ _) as [[[lp sv] ent]|?]; [|done].
  cbn [mbind Result_bind].
  destruct (bop Rminus lp _) as [d|?]; [|done]. cbn [mbind Result_bind].
  destruct (bop Rminus (PPO.returns b) _) as [adv|?]; [|done].
  cbn [mbind Result_bind].
  destruct (bop Rmult (t1_map exp d) adv) as [s1|?] eqn:H1; [|done].
  cbn [mbind Result_bind].
  destruct (bop Rmult (t1_map _ (t1_map exp d)) adv) as [s2|?] eqn:H2;
    [|done].
  cbn [mbind Result_bind].
  destruct (bop Rmin s1 s2) as [smin|?]; [|done]. cbn [mbind Result_bind].
  destruct (MseLoss _ _) as [mse|?]; [|done]. cbn [mbind Result_bind].
  destruct (bop Rplus _ _) as [l|?]; [|done]. cbn [mbind Result_bind].
  destruct (bop Rminus l _) as [loss|?]; [|done].
  cbn [mbind Result_bind mret Result_ret].
  intros [= <-]. cbn [PPO.ratios PPO.advantages PPO.surr1 PPO.surr2]. done.
Qed.







(** ** The model on concrete engines *)

Lemma demo_torch_spec : @TorchSpec demo_torch.
Proof.
  constructor. intros p g Hp. simpl. destruct p; [done|]. simpl. lia.
Qed.

Lemma demo_update_returns :
  fst (PPO.update (H := demo_torch) (demo_world demo_buffer)) = Ok tt.
Proof. reflexivity. Qed.

Lemma demo_act_returns :
  exists lp,
    ActorCritic.act (H := demo_torch) demo_policy demo_input 0%N
    = (Ok ([0], [lp]), 1%N)
    /\ demo_step = ([0], [lp]).
Proof.
  exists (match snd demo_step with [lp] => lp | _ => 0%R end).
  split; reflexivity.
Qed.

Lemma update_raises_on_empty_buffer_witness :
  (RolloutBuffer.states
     (PPO.buffer (PPO.self (demo_world RolloutBuffer.__init__))) = []
   \/ RolloutBuffer.actions
        (PPO.buffer (PPO.self (demo_world RolloutBuffer.__init__))) = []
   \/ RolloutBuffer.logprobs
        (PPO.buffer (PPO.self (demo_world RolloutBuffer.__init__))) = [])
  /\ exists msg,
       PPO.update (H := demo_torch) (demo_world RolloutBuffer.__init__)
       = (Raise (RuntimeError msg), demo_world RolloutBuffer.__init__).
Proof.
  split; [left; reflexivity|].
  exact (proj1 (update_raises_on_empty_buffer (H := demo_torch)
                  (demo_world RolloutBuffer.__init__)
                  (or_introl eq_refl))).
Defined.

Lemma behavior_equals_live_at_sync_points_witness :
  fst (PPO.update (H := demo_torch) (demo_world demo_buffer)) = Ok tt
  /\ PPO.policy_old
       (PPO.self (snd (PPO.update (H := demo_torch) (demo_world demo_buffer))))
     = PPO.policy
         (PPO.self (snd (PPO.update (H := demo_torch)
                           (demo_world demo_buffer))))
  /\ fst (PPO.load "ppo.pth" demo_loader) = Ok tt
  /\ PPO.policy_old (PPO.self (snd (PPO.load "ppo.pth" demo_loader)))
     = PPO.policy (PPO.self (snd (PPO.load "ppo.pth" demo_loader))).
Proof.
  destruct behavior_equals_live_at_sync_points as (_ & Hupd & Hload & _).
  split_and!.
  - exact demo_update_returns.
  - apply (Hupd demo_torch (demo_world demo_buffer)).
    rewrite <- demo_update_returns. apply surjective_pairing.
  - reflexivity.
  - apply (Hload "ppo.pth" demo_loader).
    change (Ok tt) with (fst (PPO.load "ppo.pth" demo_loader)).
    apply surjective_pairing.
Defined.

Lemma update_steps_then_sync_then_clear_witness :
  fst (PPO.update (H := demo_torch) (demo_world demo_buffer)) = Ok tt
  /\ PPO.step_count
       (PPO.optimizer
          (PPO.self (snd (PPO.update (H := demo_torch)
                            (demo_world demo_buffer))))) = 2
  /\ PPO.buffer
       (PPO.self (snd (PPO.update (H := demo_torch) (demo_world demo_buffer))))
     = RolloutBuffer.__init__.
Proof.
  split; [exact demo_update_returns|].
  assert (PPO.update (H := demo_torch) (demo_world demo_buffer)
          = (Ok tt, snd (PPO.update (H := demo_torch)
                           (demo_world demo_buffer)))) as Hrun.
  { rewrite <- demo_update_returns. apply surjective_pairing. }
  destruct (update_steps_then_sync_then_clear (H := demo_torch) _ _ _ Hrun)
    as [Hok _].
  destruct (Hok eq_refl) as (Hsteps & _ & _ & _ & Hbuf & _).
  split; [exact Hsteps|exact Hbuf].
Defined.

Lemma select_action_only_infers_witness :
  shape demo_obs = [4; 105; 80; 3]
  /\ PPO.select_action_input demo_obs = Ok demo_input
  /\ PPO.self (snd (PPO.select_action (H := demo_torch) demo_obs
                      (demo_world demo_buffer)))
     = PPO.self (demo_world demo_buffer).
Proof.
  destruct (select_action_only_infers (H := demo_torch) demo_obs
              (demo_world demo_buffer)) as (Hself & _ & _ & _ & Hshape & _).
  split; [reflexivity|]. split; [|exact Hself].
  exact (Hshape 4 105 80 3 eq_refl).
Defined.


Lemma demo_terms_computed :
  PPO.surrogate (H := demo_torch) 0.2 demo_batch demo_policy = Ok demo_terms.
Proof. reflexivity. Qed.



(** *** A rollout recorded under other parameters *)



















Lemma save_then_load_round_trip_witness :
  has_layout 12 2 (PPO.policy_old (PPO.self (demo_world demo_buffer)))
  /\ fst (PPO.load "ppo.pth" demo_loader) = Ok tt
  /\ PPO.policy (PPO.self (snd (PPO.load "ppo.pth" demo_loader)))
     = demo_policy
  /\ PPO.policy_old (PPO.self (snd (PPO.load "ppo.pth" demo_loader)))
     = demo_policy.
Proof.
  assert (has_layout 12 2
            (PPO.policy_old (PPO.self (demo_world demo_buffer)))) as Hlay
    by apply ActorCritic_init_layout.
  split; [exact Hlay|].
  destruct (save_then_load_round_trip (H := demo_torch) 12 2 "ppo.pth"
              (demo_world demo_buffer) demo_loader RolloutBuffer.__init__
              0.0003 0.001 0.99 2 0.2 "cpu" (const_init 1) (const_init 0)
              demo_fresh Hlay (PPO_init_ok _ _ _ _ _ _ _ _ _ _ _)
              eq_refl eq_refl)
    as (_ & _ & _ & _ & w2' & Hload & Hold & Hlive & _).
  rewrite Hload. simpl. by split_and!.
Defined.

Lemma act_action_in_range_witness :
  has_layout 12 2 demo_policy
  /\ Forall (fun a => a < 2) (fst demo_step).
Proof.
  split; [apply ActorCritic_init_layout|].
  destruct demo_act_returns as (lp & Hact & Hstep).
  rewrite Hstep.
  exact (proj1 (act_action_in_range (H := demo_torch)
                  (H0 := demo_torch_spec) 12 2 demo_policy
                  demo_input 0%N 1%N [0] [lp]
                  (ActorCritic_init_layout 12 2 (const_init 0)) Hact)).
Defined.

(** * Further properties of the code *)

Lemma update_empty_states_raises `{Torch} (w : PPO.World) :
  RolloutBuffer.states (PPO.buffer (PPO.self w)) = [] ->
  PPO.update w
  = (Raise (RuntimeError "stack expects a non-empty TensorList"), w).
Proof.
  intros Hs.
  unfold PPO.update, PPO.update_optimize, PPO.update_batch. se_unfold.
  by rewrite Hs.
Qed.

(** X1. [clear] leaves any buffer equal to a freshly constructed one, with
    five lists of length zero; clearing again changes nothing. *)
Theorem clear_gives_fresh_buffer (b : RolloutBuffer.t) :
  RolloutBuffer.clear b = RolloutBuffer.__init__
  /\ RolloutBuffer.clear (RolloutBuffer.clear b) = RolloutBuffer.clear b
  /\ RolloutBuffer.lengths (RolloutBuffer.clear b) = [0; 0; 0; 0; 0].
Proof. rewrite !clear_is_empty. done. Qed.

(** X2. After a call of [update] that returned, a second call without new
    transitions raises the [RuntimeError] of [torch.stack] on the emptied
    buffer and changes nothing. *)
Theorem update_twice_raises `{Torch} (w w1 : PPO.World) :
  PPO.update w = (Ok tt, w1) ->
  PPO.update w1
  = (Raise (RuntimeError "stack expects a non-empty TensorList"), w1).
Proof.
  intros Hupd. apply update_empty_states_raises.
  apply update_cases in Hupd as [(e & _ & ?)|(w2 & _ & Hrest)]; [done|].
  destruct Hrest as [[_ ->]|(e & ? & _)]; [|done].
  by destruct w2 as [[] ? ? ? ?].
Qed.

(** X3. With [K_epochs <= 0] the loop body never runs: on a buffer whose
    lists can be stacked, [update] evaluates nothing and makes no
    optimizer step, yet copies the live parameters into the behavior model
    and clears the buffer. *)
Theorem update_without_epochs `{Torch} (w : PPO.World) (b : PPO.Batch) :
  (PPO.K_epochs (PPO.self w) <= 0)%Z ->
  PPO.update_batch (PPO.self w) = Ok b ->
  loadable (PPO.policy_old (PPO.self w)) (PPO.policy (PPO.self w)) ->
  PPO.update w
  = (Ok tt,
     PPO.set_self
       (fun e => PPO.set_buffer RolloutBuffer.__init__
                   (PPO.set_policy_old (PPO.policy e) e)) w).
Proof.
  intros HK Hb Hl.
  unfold PPO.update, PPO.update_optimize, PPO.sync_policy_old,
    PPO.clear_buffer. se_unfold.
  rewrite Hb. replace (Z.to_nat _) with 0 by lia.
  cbn -[load_state_dict].
  rewrite (load_state_dict_loadable _ _ Hl). cbn.
  destruct w as [[] ? ? ? ?]. unfold PPO.set_self. simpl.
  by rewrite clear_is_empty.
Qed.

Lemma epoch_without_grad `{Torch} (b : PPO.Batch) (w : PPO.World) :
  PPO.grad_enabled w = false ->
  exists e, PPO.epoch b w
            = (Raise e, PPO.log (PPO.EvEvaluate PPO.Live false) w).
Proof.
  intros Hg. unfold PPO.epoch. se_unfold. cbn. rewrite Hg.
  destruct (PPO.loss_mean _ _ _); eauto.
Qed.

Lemma update_after_loop `{Torch} (w w1 : PPO.World) :
  PPO.update_optimize w = (Ok tt, w1) ->
  PPO.update w
  = (Ok tt,
     PPO.set_self
       (fun e => PPO.set_buffer RolloutBuffer.__init__
                   (PPO.set_policy_old (PPO.policy (PPO.self w1)) e)) w1)
  \/ exists e p,
       PPO.update w = (Raise e, PPO.set_self (PPO.set_policy_old p) w1).
Proof.
  intros Hopt. unfold PPO.update. se_unfold. rewrite Hopt.
  unfold PPO.sync_policy_old, PPO.clear_buffer. se_unfold.
  destruct (load_state_dict _ _) as [p [|]] eqn:Hload; cbn.
  - left. apply load_state_dict_true in Hload as ->.
    destruct w1 as [[] ? ? ? ?]. unfold PPO.set_self. cbn.
    by rewrite clear_is_empty.
  - right. eauto.
Qed.

(** X4. Called with gradient tracking off, [update] never changes the
    live parameters or the optimizer; with [K_epochs > 0] it raises (at
    the latest in [backward()] of the first pass) and leaves the buffer and
    the behavior model as they were. *)
Theorem update_without_grad_never_steps `{Torch}
    (w w' : PPO.World) (r : Result unit) :
  PPO.grad_enabled w = false ->
  PPO.update w = (r, w') ->
  PPO.policy (PPO.self w') = PPO.policy (PPO.self w)
  /\ PPO.optimizer (PPO.self w') = PPO.optimizer (PPO.self w)
  /\ ((0 < PPO.K_epochs (PPO.self w))%Z ->
      (exists e, r = Raise e)
      /\ PPO.buffer (PPO.self w') = PPO.buffer (PPO.self w)
      /\ PPO.policy_old (PPO.self w') = PPO.policy_old (PPO.self w)).
Proof.
  intros Hg Hupd.
  assert (exists r1 w1, PPO.update_optimize w = (r1, w1)
            /\ PPO.self w1 = PPO.self w
            /\ ((0 < PPO.K_epochs (PPO.self w))%Z -> exists e, r1 = Raise e))
    as (r1 & w1 & Hopt & Hself & Hraise).
  { unfold PPO.update_optimize. se_unfold.
    destruct (PPO.update_batch (PPO.self w)) as [b|e]; [|by eauto 10].
    destruct (Z.to_nat (PPO.K_epochs (PPO.self w))) as [|n] eqn:HK.
    - eexists _, _. split; [done|]. split; [done|]. lia.
    - simpl. se_unfold.
      destruct (epoch_without_grad b w Hg) as [e ->]. eauto 10. }
  destruct r1 as [[]|e].
  - assert (~ (0 < PPO.K_epochs (PPO.self w))%Z) as HK.
    { intros HK. by destruct (Hraise HK). }
    destruct (update_after_loop w w1 Hopt) as [Hu|(e & p & Hu)];
      rewrite Hu in Hupd; injection Hupd as <- <-;
      (split_and!; [by rewrite <- Hself; destruct w1 as [[] ? ? ? ?]..|done]).
  - assert (PPO.update w = (Raise e, w1)) as Hu.
    { unfold PPO.update. se_unfold. by rewrite Hopt. }
    rewrite Hu in Hupd. injection Hupd as <- <-. rewrite Hself. eauto 10.
Qed.

(** X5. A buffer holding a single state [[1, c, h, w]] of the geometry
    the network is built for cannot be trained on: [torch.squeeze] removes
    the batch dimension together with the leading one, the first pass of
    the loop raises a [RuntimeError], and the engine is left as it was. *)
Theorem update_on_single_step_raises `{Torch}
    (w : PPO.World) (s : Tensor) (c h wd : nat) :
  RolloutBuffer.states (PPO.buffer (PPO.self w)) = [s] ->
  shape s = [1; c; h; wd] ->
  32 * (conv_out (conv_out h 8 4) 4 2 * conv_out (conv_out wd 8 4) 4 2)
  = 256 * 11 ->
  (0 < PPO.K_epochs (PPO.self w))%Z ->
  (exists msg, fst (PPO.update w) = Raise (RuntimeError msg))
  /\ PPO.self (snd (PPO.update w)) = PPO.self w.
Proof.
  intros Hs Hshape _ HK.
  unfold PPO.update, PPO.update_optimize, PPO.update_batch. se_unfold.
  rewrite Hs. cbn [stack]. rewrite decide_True by constructor.
  cbn [mbind Result_bind].
  destruct (RolloutBuffer.actions _) as [|a acts]; [cbn; eauto|].
  destruct (RolloutBuffer.logprobs _) as [|l lps]; [cbn; eauto|].
  cbn [stack_squeeze mbind Result_bind mret Result_ret].
  destruct (Z.to_nat (PPO.K_epochs (PPO.self w))) as [|n] eqn:HKn; [lia|].
  cbn [PPO.epochs]. se_unfold. unfold PPO.epoch. se_unfold.
  unfold PPO.loss_mean, PPO.surrogate, ActorCritic.evaluate,
    ActorCritic.actor, ActorCritic.batch_rows, squeeze.
  cbn [PPO.old_states shape data length concat map].
  rewrite Hshape, !filter_cons, filter_nil.
  repeat case_decide; try done; cbn; eauto.
Qed.

(** X6. On an observation with fewer than four dimensions
    [select_action] raises [IndexError] (from [state.shape[3]]), before
    any model query and with nothing changed. *)
Theorem select_action_needs_four_dimensions `{Torch}
    (state : Tensor) (w : PPO.World) :
  length (shape state) < 4 ->
  PPO.select_action state w = (Raise IndexError, w).
Proof.
  intros Hrank.
  assert (PPO.select_action_input state = Raise IndexError) as Hin.
  { unfold PPO.select_action_input, shape_at.
    destruct (shape state) as [|d0 [|d1 [|d2 [|d3 rest]]]]; simpl in *;
      try done; lia. }
  unfold PPO.select_action, PPO.no_grad. se_unfold. rewrite Hin. cbn.
  by destruct w.
Qed.

Lemma loadable_layout (state_dim action_dim : nat) (m1 m2 sd : Params) :
  has_layout state_dim action_dim m1 ->
  has_layout state_dim action_dim m2 ->
  loadable m1 sd -> loadable m2 sd.
Proof.
  intros [Hd1 Hm1] [Hd2 Hm2] [Hdom Hall]. split; [congruence|].
  intros k p Hk. simpl.
  assert (k ∈ dom m2) as Hin by (apply elem_of_dom; eauto).
  rewrite Hd2, elem_of_list_to_set, list_elem_of_fmap in Hin.
  destruct Hin as ([k' s] & -> & Hin). simpl in *.
  destruct (Hm1 _ _ Hin) as (p1 & Hp1 & Hs1 & _).
  destruct (Hm2 _ _ Hin) as (p2 & Hp2 & Hs2 & _).
  specialize (Hall k' p1 Hp1). simpl in Hall. congruence.
Qed.

(** X7. A call of [load] that raises, on an engine whose two models have
    one layout, leaves the live parameters, the buffer, the optimizer and
    the files as they were; on a path that holds no checkpoint it raises
    [FileNotFoundError] and changes nothing at all. *)
Theorem load_failure_spares_live_model
    (state_dim action_dim : nat) (path : string) (w w' : PPO.World)
    (e : Exn) :
  has_layout state_dim action_dim (PPO.policy (PPO.self w)) ->
  has_layout state_dim action_dim (PPO.policy_old (PPO.self w)) ->
  PPO.load path w = (Raise e, w') ->
  PPO.policy (PPO.self w') = PPO.policy (PPO.self w)
  /\ PPO.buffer (PPO.self w') = PPO.buffer (PPO.self w)
  /\ PPO.optimizer (PPO.self w') = PPO.optimizer (PPO.self w)
  /\ PPO.files w' = PPO.files w
  /\ (PPO.files w !! path = None -> e = FileNotFoundError path /\ w' = w).
Proof.
  intros Hlive Hold.
  unfold PPO.load, PPO.torch_load. se_unfold.
  destruct (PPO.files w !! path) as [sd|] eqn:Hfile.
  - destruct (load_state_dict (PPO.policy_old _) sd) as [p [|]] eqn:Hl1.
    + cbn -[load_state_dict]. rewrite Hfile.
      assert (loadable (PPO.policy (PPO.self w)) sd) as Hl2.
      { apply (loadable_layout state_dim action_dim
                 (PPO.policy_old (PPO.self w))); [done..|].
        unfold load_state_dict in Hl1. injection Hl1 as _ Hl1.
        by apply bool_decide_eq_true in Hl1. }
      rewrite (load_state_dict_loadable _ _ Hl2). done.
    + cbn. intros [= <- <-]. by destruct w as [[] ? ? ? ?].
  - cbn. intros [= <- <-]. split_and!; try done. 
Qed.

(** X8. [save] followed by [load] of the same path on the same engine
    returns and overwrites the live parameters with the behavior
    parameters: training of the live model that was not yet copied is
    discarded; the behavior model, the buffer and the optimizer stay. *)
Theorem save_then_load_resets_live_model
    (state_dim action_dim : nat) (path : string) (w : PPO.World) :
  has_layout state_dim action_dim (PPO.policy (PPO.self w)) ->
  has_layout state_dim action_dim (PPO.policy_old (PPO.self w)) ->
  PPO.load path (snd (PPO.save path w))
  = (Ok tt,
     PPO.set_files (<[path := PPO.policy_old (PPO.self w)]>)
       (PPO.set_self (PPO.set_policy (PPO.policy_old (PPO.self w))) w)).
Proof.
  intros Hlive Hold. rewrite save_spec. cbn [snd].
  rewrite (load_layout state_dim action_dim path _
             (PPO.policy_old (PPO.self w))).
  - by destruct w as [[] ? ? ? ?].
  - cbn. apply lookup_insert_eq.
  - exact Hold.
  - exact Hlive.
  - exact Hold.
Qed.

Lemma select_action_input_shape (state x : Tensor) :
  PPO.select_action_input state = Ok x ->
  exists c h w, shape x = [1; c; h; w].
Proof.
  unfold PPO.select_action_input, reshape.
  destruct (shape_at state 0) as [d0|]; [|done].
  destruct (shape_at state 3) as [d3|]; [|done].
  destruct (shape_at state 1) as [d1|]; [|done].
  destruct (shape_at state 2) as [d2|]; [|done].
  cbn. case_decide; [|done]. intros [= <-]. cbn. eauto.
Qed.

(** X9. A call of [select_action] that returns gives exactly one action and
    one log-probability: the behavior model yields one row of
    probabilities for the reshaped observation, and the log-probability is
    that of the returned action under the categorical distribution of that
    row. *)
Theorem select_action_returns_one_sample `{Torch}
    (state : Tensor) (w w' : PPO.World) (acts : list nat) (lps : list R) :
  PPO.select_action state w = (Ok (acts, lps), w') ->
  exists x row a lp,
    PPO.select_action_input state = Ok x
    /\ ActorCritic.actor (PPO.policy_old (PPO.self w)) x = Ok [row]
    /\ acts = [a] /\ lps = [lp]
    /\ Categorical.log_prob (Categorical.__init__ row) a = Ok lp.
Proof.
  intros Hsel.
  pose proof (select_action_runs state w) as (_ & _ & _ & Hq).
  rewrite Hsel in Hq. cbn [fst snd] in Hq.
  destruct (PPO.select_action_input state) as [x|e] eqn:Hin;
    [|by destruct Hq].
  destruct Hq as [_ Hq]. symmetry in Hq.
  destruct (select_action_input_shape _ _ Hin) as (c & h & wd & Hx).
  exists x. unfold ActorCritic.act in Hq. se_unfold.
  destruct (ActorCritic.actor _ x) as [probs|e] eqn:Hp; [|done].
  destruct (mapM (M := SE N) _ _ (PPO.rng w)) as [[as'|e] g1] eqn:Hs; [|done].
  destruct (mapM _ (zip _ as')) as [ls|e] eqn:Hl; [|done].
  injection Hq as <- <- _.
  assert (length probs = 1) as Hone.
  { unfold ActorCritic.actor, ActorCritic.batch_rows in Hp.
    rewrite Hx in Hp. cbn [mbind Result_bind] in Hp.
    apply mapM_Result_length in Hp. by rewrite Hp, length_map. }
  apply mapM_SE_Forall2, Forall2_length in Hs. rewrite length_map in Hs.
  destruct probs as [|row [|??]]; try done.
  destruct as' as [|a [|??]]; try done.
  cbn in Hl. unfold mbind, Result_bind, mret, Result_ret in Hl.
  destruct (Categorical.log_prob _ a) as [lp|e] eqn:Hlp; [|done].
  injection Hl as <-. eauto 10.
Qed.

(** X10. Whatever its outcome, [update] leaves the hyperparameters
    ([gamma], [eps_clip], [K_epochs], [device]), the checkpoint files, the
    random generator and the gradient mode as they were. *)
Theorem update_keeps_configuration `{Torch}
    (w w' : PPO.World) (r : Result unit) :
  PPO.update w = (r, w') ->
  PPO.gamma (PPO.self w') = PPO.gamma (PPO.self w)
  /\ PPO.eps_clip (PPO.self w') = PPO.eps_clip (PPO.self w)
  /\ PPO.K_epochs (PPO.self w') = PPO.K_epochs (PPO.self w)
  /\ PPO.device (PPO.self w') = PPO.device (PPO.self w)
  /\ PPO.files w' = PPO.files w
  /\ PPO.rng w' = PPO.rng w
  /\ PPO.grad_enabled w' = PPO.grad_enabled w.
Proof.
  intros Hupd.
  destruct (PPO.update_optimize w) as [[[]|e] w1] eqn:Hopt.
  - pose proof Hopt as Hopt'.
    apply update_optimize_trained in Hopt' as (p & o & tr & -> & _).
    destruct (update_after_loop _ _ Hopt) as [Hu|(e & q & Hu)];
      rewrite Hu in Hupd; injection Hupd as <- <-;
      by destruct w as [[] ? ? ? ?].
  - assert (PPO.update w = (Raise e, w1)) as Hu.
    { unfold PPO.update. se_unfold. by rewrite Hopt. }
    rewrite Hu in Hupd. injection Hupd as <- <-.
    apply update_optimize_trained in Hopt as (p & o & tr & -> & _).
    by destruct w as [[] ? ? ? ?].
Qed.

Lemma power_sum_S (gamma : R) (k : nat) (rs : list R) :
  power_sum gamma (S k) rs = (gamma * power_sum gamma k rs)%R.
Proof.
  revert k. induction rs as [|r rs IH]; intros k; simpl.
  - ring.
  - rewrite (IH (S k)). simpl. ring.
Qed.

Lemma returns_chrono_head (gamma : R) (steps : list (R * bool)) :
  hd 0%R (returns_chrono gamma steps) = power_sum gamma 0 (episode steps).
Proof.
  induction steps as [|[r d] rest IH]; [done|].
  cbn [returns_chrono hd episode power_sum add mul zero Num_R].
  destruct d; cbn [power_sum].
  - simpl. ring.
  - rewrite power_sum_S, IH. simpl. ring.
Qed.

Lemma lookup_hd_drop {A} (d : A) (l : list A) (t : nat) :
  t < length l -> l !! t = Some (hd d (drop t l)).
Proof.
  intros Ht. destruct (lookup_lt_is_Some_2 l t Ht) as [x Hx].
  rewrite Hx. f_equal.
  rewrite <- (take_drop_middle l t x Hx) at 1.
  rewrite drop_app_length'; [done|].
  rewrite length_take. lia.
Qed.

(** X11. Over the reals, the return [update] computes for step [t] is the
    discounted sum [r_t + gamma * r_(t+1) + gamma^2 * r_(t+2) + ...] of
    the rewards from [t] up to and including the first terminal step at or
    after [t], or up to the end of the buffer when there is none. *)
Theorem returns_are_discounted_sums
    (gamma : R) (rewards : list R) (is_terminals : list bool) (t : nat) :
  length rewards = length is_terminals ->
  t < length rewards ->
  discounted_returns gamma rewards is_terminals !! t
  = Some (power_sum gamma 0 (episode (drop t (zip rewards is_terminals)))).
Proof.
  intros Hlen Ht. rewrite discounted_returns_aligned by done.
  rewrite (lookup_hd_drop 0%R).
  - by rewrite returns_chrono_drop, returns_chrono_head.
  - rewrite returns_chrono_length, length_zip_with. lia.
Qed.

(** X12. The return of the last buffered step is its reward, whether or
    not that step is flagged terminal: a rollout cut off in the middle of
    an episode is treated as if the episode ended there. When every step
    is terminal the returns are the rewards. *)
Theorem last_step_is_not_bootstrapped
    (gamma : R) (rewards : list R) (is_terminals : list bool) (r : R) :
  length rewards = length is_terminals ->
  last rewards = Some r ->
  last (discounted_returns gamma rewards is_terminals) = Some r
  /\ (Forall (fun d => d = true) is_terminals ->
      discounted_returns gamma rewards is_terminals = rewards).
Proof.
  intros Hlen Hlast.
  rewrite discounted_returns_aligned by done. split.
  - rewrite last_lookup in *.
    rewrite returns_chrono_length, length_zip_with_l_eq by done.
    assert (pred (length rewards) < length is_terminals) as Hlt.
    { apply lookup_lt_Some in Hlast. lia. }
    destruct (lookup_lt_is_Some_2 is_terminals _ Hlt) as [d Hd].
    rewrite (returns_chrono_lookup gamma _ _ r d).
    + rewrite (lookup_ge_None_2 (returns_chrono _ _)).
      * f_equal. destruct d; simpl; ring.
      * rewrite returns_chrono_length, length_zip_with. lia.
    + apply lookup_zip_with_Some. eauto.
  - intros Hall. apply list_eq. intros t.
    destruct (rewards !! t) as [x|] eqn:Hx.
    + assert (is_terminals !! t = Some true) as Hd.
      { apply lookup_lt_Some in Hx.
        destruct (lookup_lt_is_Some_2 is_terminals t) as [d Hd]; [lia|].
        rewrite Forall_forall in Hall.
        rewrite (Hall d) in Hd; [done|]. by eapply list_elem_of_lookup_2. }
      rewrite (returns_chrono_lookup gamma _ _ x true).
      * f_equal. simpl. ring.
      * apply lookup_zip_with_Some. eauto.
    + apply lookup_ge_None_2.
      apply lookup_ge_None_1 in Hx.
      rewrite returns_chrono_length, length_zip_with. lia.
Qed.

Lemma Rsum_affine (mu d : R) (l : list R) :
  Rsum (map (fun x => ((x - mu) / d)%R) l)
  = ((Rsum l - INR (length l) * mu) / d)%R.
Proof.
  induction l as [|x l IH].
  - simpl. unfold Rdiv. ring.
  - cbn [map Rsum foldr length]. fold (Rsum (map (fun x => ((x - mu) / d)%R) l)).
    fold (Rsum l). rewrite IH, S_INR. unfold Rdiv. ring.
Qed.

Lemma mean_constant (c : R) (l : list R) :
  l <> [] -> Forall (fun x => x = c) l -> mean l = c.
Proof.
  intros Hne Hall. unfold mean.
  assert (Rsum l = (INR (length l) * c)%R) as ->.
  { clear Hne. induction Hall as [|x l -> _ IH]; [simpl; ring|].
    cbn [Rsum foldr length]. fold (Rsum l). rewrite IH, S_INR. ring. }
  field. apply not_0_INR. by destruct l.
Qed.

(** X13. The normalisation of [update] keeps the number of returns; for at
    least two returns the normalised returns sum to zero, and returns that
    are all equal are normalised to zeros (the [1e-7] keeps the division
    defined when the deviation is zero). *)
Theorem normalize_centers_the_returns (rewards : list R) :
  length (PPO.normalize rewards) = length rewards
  /\ (2 <= length rewards -> Rsum (PPO.normalize rewards) = 0%R)
  /\ (2 <= length rewards ->
      forall c, Forall (fun x => x = c) rewards ->
      PPO.normalize rewards = map (fun _ => 0%R) rewards).
Proof.
  unfold PPO.normalize. split_and!.
  - by rewrite length_map.
  - intros Hlen. rewrite Rsum_affine. unfold mean.
    assert (INR (length rewards) <> 0%R) as Hn.
    { apply not_0_INR. lia. }
    unfold Rdiv.
    replace (Rsum rewards - INR (length rewards)
             * (Rsum rewards * / INR (length rewards)))%R with 0%R
      by (field; done).
    ring.
  - intros Hlen c Hall.
    rewrite (mean_constant c) by (done || (destruct rewards; simpl in *; [lia|done])).
    apply Forall_fmap_ext. eapply Forall_impl; [apply Hall|].
    intros x ->. unfold Rdiv. ring.
Qed.

Lemma Rsum_exp_pos (z : list R) : z <> [] -> (0 < Rsum (map exp z))%R.
Proof.
  intros Hne. destruct z as [|x z]; [done|]. clear Hne.
  revert x. induction z as [|y z IH]; intros x.
  - simpl. pose proof (exp_pos x). lra.
  - specialize (IH y). cbn [map Rsum foldr] in *.
    pose proof (exp_pos x). lra.
Qed.

Lemma Rsum_scale (s : R) (l : list R) :
  Rsum (map (fun x => (x / s)%R) l) = (Rsum l / s)%R.
Proof.
  induction l as [|x l IH]; simpl.
  - unfold Rdiv. ring.
  - fold (Rsum (map (fun x => (x / s)%R) l)). fold (Rsum l).
    rewrite IH. unfold Rdiv. ring.
Qed.

Lemma softmax_distribution (z : list R) :
  z <> [] ->
  Rsum (softmax z) = 1%R
  /\ Forall (fun p => (0 < p <= 1)%R) (softmax z)
  /\ Categorical.__init__ (softmax z) = softmax z.
Proof.
  intros Hne. pose proof (Rsum_exp_pos z Hne) as Hpos.
  assert (Rsum (softmax z) = 1%R) as Hsum.
  { unfold softmax. rewrite Rsum_scale. field. lra. }
  split_and!; [done| |].
  - unfold softmax. apply Forall_fmap, Forall_forall. intros e He. simpl.
    assert (0 < e <= Rsum (map exp z))%R as [He0 He1].
    { clear Hpos Hsum Hne. induction z as [|x z IH]; [by inversion He|].
      cbn [map Rsum foldr] in *. fold (Rsum (map exp z)).
      apply elem_of_cons in He as [->|He].
      - pose proof (exp_pos x).
        assert (0 <= Rsum (map exp z))%R.
        { destruct z; [simpl; lra|].
          apply Rlt_le, Rsum_exp_pos. done. }
        lra.
      - specialize (IH He). pose proof (exp_pos x). lra. }
    split.
    + by apply Rdiv_lt_0_compat.
    + apply (Rmult_le_reg_r (Rsum (map exp z))); [done|].
      replace (e / Rsum (map exp z) * Rsum (map exp z))%R with e
        by (field; lra).
      lra.
  - unfold Categorical.__init__. rewrite Hsum.
    rewrite <- (list_fmap_id (softmax z)) at 2.
    apply list_fmap_ext. intros i p _. simpl. field.
Qed.

(** X14. Over the reals, that is for the softmax computed in exact
    arithmetic: on a network built for [action_dim > 0] actions, every row
    the actor returns has [action_dim] entries, which lie in (0, 1] and
    sum to one, so that the normalisation [Categorical] applies leaves the
    row as it is. (In floating point an entry can round to zero, and the
    sum is one up to rounding only.) *)
Theorem actor_rows_are_distributions `{Torch}
    (state_dim action_dim : nat) (m : Params) (state : Tensor)
    (action_probs : list (list R)) :
  has_layout state_dim action_dim m ->
  0 < action_dim ->
  ActorCritic.actor m state = Ok action_probs ->
  Forall (fun row =>
            length row = action_dim
            /\ Rsum row = 1%R
            /\ Forall (fun p => (0 < p <= 1)%R) row
            /\ Categorical.__init__ row = row) action_probs.
Proof.
  intros Hm Hpos. unfold ActorCritic.actor.
  destruct (ActorCritic.batch_rows state) as [rows|e]; [|done]. simpl.
  intros Hrows. apply mapM_Result_Forall2 in Hrows.
  induction Hrows as [|x row rows' probs Hrow _ IH]; constructor; [|done].
  unfold ActorCritic.actor_row in Hrow.
  destruct (hidden "actor" m x) as [h|e]; [|done]. simpl in Hrow.
  destruct (ActorCritic.linear m "actor.7" h) as [z|e] eqn:Hz; [|done].
  simpl in Hrow. injection Hrow as <-.
  pose proof (actor_head_length _ _ _ _ _ Hm Hz) as Hlen.
  split.
  - unfold softmax. by rewrite !length_map.
  - apply softmax_distribution. destruct z; [simpl in Hlen; lia|done].
Qed.

Lemma clip_objective (eps rho a : R) :
  (0 <= eps)%R ->
  let s1 := (rho * a)%R in
  let s2 := (clamp (1 - eps) (1 + eps) rho * a)%R in
  (Rmin s1 s2 <= s1)%R
  /\ ((0 <= a)%R -> Rmin s1 s2 = (Rmin rho (1 + eps) * a)%R)
  /\ ((a <= 0)%R -> Rmin s1 s2 = (Rmax rho (1 - eps) * a)%R).
Proof.
  intros Heps s1 s2. subst s1 s2. unfold clamp, Rmin, Rmax.
  repeat destruct (Rle_dec _ _); split_and!; intros; nra.
Qed.

Lemma clamp_inverted (eps rho : R) :
  (eps < 0)%R -> clamp (1 - eps) (1 + eps) rho = (1 + eps)%R.
Proof.
  intros Heps. unfold clamp, Rmin, Rmax.
  repeat destruct (Rle_dec _ _); lra.
Qed.

(** X15. For a batch whose ratios and advantages have one length, the two
    surrogates are the entry-wise products [ratio * advantage] and
    [clamp(ratio, 1 - eps, 1 + eps) * advantage]. With [eps >= 0] their
    minimum never exceeds the unclipped one, it caps the ratio at
    [1 + eps] where the advantage is non-negative and floors it at
    [1 - eps] where the advantage is non-positive. With [eps < 0] the
    clamp is the constant [1 + eps]. *)
Theorem clipped_surrogate_bounds `{Torch}
    (eps : R) (b : PPO.Batch) (m : Params) (t : PPO.Terms)
    (rhos advs : list R) :
  PPO.surrogate eps b m = Ok t ->
  PPO.ratios t = Vec rhos ->
  PPO.advantages t = Vec advs ->
  length rhos = length advs ->
  PPO.surr1 t = Vec (zip_with Rmult rhos advs)
  /\ PPO.surr2 t
     = Vec (zip_with (fun rho a => (clamp (1 - eps) (1 + eps) rho * a)%R)
              rhos advs)
  /\ ((0 <= eps)%R ->
      Forall2 (fun rho a =>
                 let s1 := (rho * a)%R in
                 let s2 := (clamp (1 - eps) (1 + eps) rho * a)%R in
                 (Rmin s1 s2 <= s1)%R
                 /\ ((0 <= a)%R -> Rmin s1 s2 = (Rmin rho (1 + eps) * a)%R)
                 /\ ((a <= 0)%R -> Rmin s1 s2 = (Rmax rho (1 - eps) * a)%R))
        rhos advs)
  /\ ((eps < 0)%R ->
      PPO.surr2 t = Vec (map (fun a => ((1 + eps) * a)%R) advs)).
Proof.
  intros Ht Hr Ha Hlen.
  destruct (surrogate_terms _ _ _ _ Ht) as [H1 H2].
  rewrite Hr, Ha in H1, H2. cbn [t1_map] in H2.
  rewrite bop_same_length in H1 by done.
  rewrite bop_same_length in H2 by (by rewrite length_map).
  injection H1 as <-. injection H2 as H2.
  rewrite zip_with_fmap_l in H2.
  split_and!; [done|done| |].
  - intros Heps. apply Forall2_same_length_lookup_2; [done|].
    intros i rho a _ _. by apply clip_objective.
  - intros Heps. rewrite <- H2. f_equal.
    clear -Hlen Heps. revert advs Hlen.
    induction rhos as [|rho rhos IH]; intros [|a advs] Hlen; try done.
    simpl in *. rewrite clamp_inverted by done. f_equal. apply IH. lia.
Qed.

(** ** The further properties on concrete engines *)

Lemma demo_update_runs :
  PPO.update (H := demo_torch) (demo_world demo_buffer)
  = (Ok tt, snd (PPO.update (H := demo_torch) (demo_world demo_buffer))).
Proof. rewrite <- demo_update_returns. apply surjective_pairing. Qed.

Lemma update_twice_raises_witness :
  fst (PPO.update (H := demo_torch) (demo_world demo_buffer)) = Ok tt
  /\ fst (PPO.update (H := demo_torch)
            (snd (PPO.update (H := demo_torch) (demo_world demo_buffer))))
     = Raise (RuntimeError "stack expects a non-empty TensorList").
Proof.
  split; [exact demo_update_returns|].
  by rewrite (update_twice_raises (H := demo_torch) _ _ demo_update_runs).
Defined.

Lemma idle_batch_built :
  PPO.update_batch (PPO.self (idle_world demo_buffer)) = Ok idle_batch.
Proof. reflexivity. Qed.

Lemma demo_policy_loadable : loadable demo_policy demo_policy.
Proof.
  apply (layout_loadable 12 2); apply ActorCritic_init_layout.
Qed.

Lemma update_without_epochs_witness :
  (PPO.K_epochs (PPO.self (idle_world demo_buffer)) <= 0)%Z
  /\ fst (PPO.update (H := demo_torch) (idle_world demo_buffer)) = Ok tt
  /\ PPO.trace (snd (PPO.update (H := demo_torch) (idle_world demo_buffer)))
     = [].
Proof.
  assert (PPO.K_epochs (PPO.self (idle_world demo_buffer)) <= 0)%Z as HK
    by (simpl; lia).
  split; [exact HK|].
  by rewrite (update_without_epochs (H := demo_torch) _ _ HK idle_batch_built
                demo_policy_loadable).
Defined.

Lemma update_without_grad_never_steps_witness :
  PPO.grad_enabled (PPO.set_grad false (demo_world demo_buffer)) = false
  /\ PPO.policy
       (PPO.self (snd (PPO.update (H := demo_torch)
                         (PPO.set_grad false (demo_world demo_buffer)))))
     = demo_policy.
Proof.
  split; [reflexivity|].
  exact (proj1 (update_without_grad_never_steps (H := demo_torch)
                  (PPO.set_grad false (demo_world demo_buffer)) _ _ eq_refl
                  (surjective_pairing _))).
Defined.

Lemma update_on_single_step_raises_witness :
  RolloutBuffer.states (PPO.buffer (PPO.self (demo_world single_buffer)))
  = [demo_input]
  /\ PPO.self (snd (PPO.update (H := demo_torch) (demo_world single_buffer)))
     = PPO.self (demo_world single_buffer).
Proof.
  split; [reflexivity|].
  refine (proj2 (update_on_single_step_raises (H := demo_torch)
                   (demo_world single_buffer) demo_input 12 105 80
                   eq_refl eq_refl eq_refl _)).
  simpl. lia.
Defined.

Lemma select_action_needs_four_dimensions_witness :
  length (shape flat_obs) < 4
  /\ PPO.select_action (H := demo_torch) flat_obs (demo_world demo_buffer)
     = (Raise IndexError, demo_world demo_buffer).
Proof.
  assert (length (shape flat_obs) < 4) as Hrank by (simpl; lia).
  split; [exact Hrank|].
  exact (select_action_needs_four_dimensions (H := demo_torch) flat_obs
           (demo_world demo_buffer) Hrank).
Defined.

Lemma demo_load_missing :
  PPO.load "missing.pth" (demo_world demo_buffer)
  = (Raise (FileNotFoundError "missing.pth"), demo_world demo_buffer).
Proof. reflexivity. Qed.

Lemma load_failure_spares_live_model_witness :
  has_layout 12 2 (PPO.policy (PPO.self (demo_world demo_buffer)))
  /\ PPO.load "missing.pth" (demo_world demo_buffer)
     = (Raise (FileNotFoundError "missing.pth"), demo_world demo_buffer)
  /\ PPO.policy (PPO.self (demo_world demo_buffer)) = demo_policy
  /\ PPO.files (demo_world demo_buffer) = ∅.
Proof.
  assert (has_layout 12 2 demo_policy) as Hlay
    by apply ActorCritic_init_layout.
  split; [exact Hlay|]. split; [exact demo_load_missing|].
  destruct (load_failure_spares_live_model 12 2 "missing.pth"
              (demo_world demo_buffer) (demo_world demo_buffer) _
              Hlay Hlay demo_load_missing) as (Hp & _ & _ & Hf & _).
  split; [exact Hp|exact Hf].
Defined.

Lemma save_then_load_resets_live_model_witness :
  has_layout 12 2 (PPO.policy (PPO.self demo_loader))
  /\ fst (PPO.load "fresh.pth" (snd (PPO.save "fresh.pth" demo_loader)))
     = Ok tt.
Proof.
  assert (has_layout 12 2 (PPO.policy (PPO.self demo_loader))) as Hlay
    by apply ActorCritic_init_layout.
  split; [exact Hlay|].
  by rewrite (save_then_load_resets_live_model 12 2 "fresh.pth" demo_loader
                Hlay Hlay).
Defined.

Lemma demo_select_action_runs :
  PPO.select_action (H := demo_torch) demo_obs
    (demo_world RolloutBuffer.__init__)
  = (Ok (fst demo_step, snd demo_step),
     snd (PPO.select_action (H := demo_torch) demo_obs
            (demo_world RolloutBuffer.__init__))).
Proof. reflexivity. Qed.

Lemma select_action_returns_one_sample_witness :
  PPO.select_action (H := demo_torch) demo_obs
    (demo_world RolloutBuffer.__init__)
  = (Ok (fst demo_step, snd demo_step),
     snd (PPO.select_action (H := demo_torch) demo_obs
            (demo_world RolloutBuffer.__init__)))
  /\ length (fst demo_step) = 1 /\ length (snd demo_step) = 1.
Proof.
  split; [exact demo_select_action_runs|].
  destruct (select_action_returns_one_sample (H := demo_torch) _ _ _ _ _
              demo_select_action_runs)
    as (x & row & a & lp & _ & _ & -> & -> & _).
  split; reflexivity.
Defined.

Lemma update_keeps_configuration_witness :
  PPO.update (H := demo_torch) (demo_world demo_buffer)
  = (Ok tt, snd (PPO.update (H := demo_torch) (demo_world demo_buffer)))
  /\ PPO.K_epochs
       (PPO.self (snd (PPO.update (H := demo_torch)
                         (demo_world demo_buffer)))) = 2%Z.
Proof.
  split; [exact demo_update_runs|].
  destruct (update_keeps_configuration (H := demo_torch) _ _ _
              demo_update_runs) as (_ & _ & HK & _).
  exact HK.
Defined.

Lemma returns_are_discounted_sums_witness :
  length [1%R; 2%R; 4%R] = length [false; true; false]
  /\ discounted_returns 0.5%R [1%R; 2%R; 4%R] [false; true; false] !! 0
     = Some (power_sum 0.5 0 [1%R; 2%R]).
Proof.
  split; [reflexivity|].
  refine (returns_are_discounted_sums 0.5%R [1%R; 2%R; 4%R]
            [false; true; false] 0 eq_refl _).
  simpl. lia.
Defined.

Lemma last_step_is_not_bootstrapped_witness :
  last [1%R; 2%R; 4%R] = Some 4%R
  /\ last (discounted_returns 0.5%R [1%R; 2%R; 4%R] [false; true; false])
     = Some 4%R.
Proof.
  split; [reflexivity|].
  exact (proj1 (last_step_is_not_bootstrapped 0.5%R [1%R; 2%R; 4%R]
                  [false; true; false] 4%R eq_refl eq_refl)).
Defined.

Lemma normalize_centers_the_returns_witness :
  2 <= length [3%R; 3%R]
  /\ PPO.normalize [3%R; 3%R] = [0%R; 0%R].
Proof.
  assert (2 <= length [3%R; 3%R]) as Hlen by (simpl; lia).
  split; [exact Hlen|].
  refine (proj2 (proj2 (normalize_centers_the_returns [3%R; 3%R])) Hlen 3%R _).
  repeat constructor.
Defined.

Lemma demo_probs_computed :
  ActorCritic.actor (H := demo_torch) demo_policy demo_input = Ok demo_probs.
Proof. reflexivity. Qed.

Lemma actor_rows_are_distributions_witness :
  has_layout 12 2 demo_policy
  /\ Forall (fun row => length row = 2 /\ Rsum row = 1%R) demo_probs.
Proof.
  assert (has_layout 12 2 demo_policy) as Hlay
    by apply ActorCritic_init_layout.
  split; [exact Hlay|].
  assert (0 < 2) as Hpos by lia.
  eapply Forall_impl;
    [exact (actor_rows_are_distributions (H := demo_torch) 12 2 demo_policy
              demo_input demo_probs Hlay Hpos demo_probs_computed)|].
  intros row (Hlen & Hsum & _). split; [exact Hlen|exact Hsum].
Defined.

Lemma demo_terms_vectors :
  PPO.ratios demo_terms = Vec (t1_list (PPO.ratios demo_terms))
  /\ PPO.advantages demo_terms = Vec (t1_list (PPO.advantages demo_terms))
  /\ length (t1_list (PPO.ratios demo_terms))
     = length (t1_list (PPO.advantages demo_terms)).
Proof. split_and!; reflexivity. Qed.

Lemma clipped_surrogate_bounds_witness :
  PPO.surrogate (H := demo_torch) 0.2 demo_batch demo_policy = Ok demo_terms
  /\ PPO.surr1 demo_terms
     = Vec (zip_with Rmult (t1_list (PPO.ratios demo_terms))
              (t1_list (PPO.advantages demo_terms))).
Proof.
  split; [exact demo_terms_computed|].
  destruct demo_terms_vectors as (Hr & Ha & Hlen).
  exact (proj1 (clipped_surrogate_bounds (H := demo_torch) 0.2 demo_batch
                  demo_policy demo_terms _ _ demo_terms_computed Hr Ha Hlen)).
Defined.
